(** * AMP admission monitor: a shallow embedding of [amp_monitor_fixed.py]

    The script polls one web page, derives FULL / OPEN from its text and
    posts to a webhook when the derived status changes.  The embedding
    follows the three functions of the script, [send_discord_alert],
    [check_website] and [main], over an explicit model of the network:
    every [requests.get] / [requests.post] asks an oracle for its outcome
    and is recorded in a trace.  Page texts are sequences of Unicode code
    points, upper-cased as [str.upper()] does: by the ASCII rule below 128
    and by the case table of the Python runtime, a parameter, from there
    on.  What the script prints is left out. *)

From Stdlib Require Import String Ascii List ZArith Bool Arith Lia.
Import ListNotations.

Local Open Scope string_scope.
Local Open Scope Z_scope.

(** ** Strings *)

Module Str.

(** A Python [str]: a sequence of Unicode code points. *)
Definition str : Type := list N.

(** The code points of an ASCII literal. *)
Definition of_string (s : string) : str :=
  List.map N_of_ascii (list_ascii_of_string s).

(** The Unicode case table outside ASCII: the upper-case mapping that
    [str.upper()] applies to a code point from 128 on, which can be
    several code points long (U+00DF gives SS, U+FB00 gives FF).  The table
    belongs to the Python runtime, not to the script; the model takes it
    as a parameter. *)
Definition case_table : Type := N -> list N.

Definition is_ascii_lower (c : N) : bool := ((97 <=? c) && (c <=? 122))%N.

Definition ascii_upper (c : N) : N :=
  if is_ascii_lower c then (c - 32)%N else c.

(** [str.upper()] on one character: within ASCII the letters a-z go to A-Z
    and nothing else changes; further up the case table decides. *)
Definition upper_char (table : case_table) (c : N) : list N :=
  if (c <? 128)%N then [ascii_upper c] else table c.

(** [s.upper()]: character by character. *)
Definition upper (table : case_table) (s : str) : str :=
  flat_map (upper_char table) s.

(** [hay.startswith(needle)] *)
Fixpoint prefix (needle hay : str) : bool :=
  match needle, hay with
  | [], _ => true
  | _ :: _, [] => false
  | a :: needle', b :: hay' => (a =? b)%N && prefix needle' hay'
  end.

(** [needle in hay], Python's substring test. *)
Fixpoint contains (needle hay : str) : bool :=
  prefix needle hay ||
  match hay with
  | [] => false
  | _ :: hay' => contains needle hay'
  end.

(** [any(keyword in hay for keyword in keywords)] *)
Definition any_in (keywords : list str) (hay : str) : bool :=
  existsb (fun keyword => contains keyword hay) keywords.

(** [s[:n]] *)
Definition take (n : nat) (s : str) : str := firstn n s.

(** A text without characters outside ASCII. *)
Definition is_ascii (s : str) : Prop := Forall (fun c => (c < 128)%N) s.

(** What "contains the substring, ignoring case" means, said without any
    upper-casing of the text: two characters are the same letter when they
    are equal or one is the capital of the other, small letter a-z; two
    texts are the same ignoring case when they are so character by
    character; and a text contains a needle ignoring case when some
    contiguous piece of it is the needle ignoring case. *)
Definition same_letter (c d : N) : Prop :=
  c = d \/
  (is_ascii_lower c = true /\ d = (c - 32)%N) \/
  (is_ascii_lower d = true /\ c = (d - 32)%N).

Definition same_ignoring_case (a b : str) : Prop := Forall2 same_letter a b.

Definition contains_ignoring_case (needle text : str) : Prop :=
  exists pre mid post,
    text = (pre ++ mid ++ post)%list /\ same_ignoring_case mid needle.

(** The same three as tests. *)
Definition same_letter_b (c d : N) : bool :=
  ((c =? d) || (is_ascii_lower c && (d =? c - 32)) ||
   (is_ascii_lower d && (c =? d - 32)))%N.

Fixpoint prefix_ignoring_case_b (needle hay : str) : bool :=
  match needle, hay with
  | [], _ => true
  | _ :: _, [] => false
  | a :: needle', b :: hay' => same_letter_b b a && prefix_ignoring_case_b needle' hay'
  end.

Fixpoint contains_ignoring_case_b (needle hay : str) : bool :=
  prefix_ignoring_case_b needle hay ||
  match hay with
  | [] => false
  | _ :: hay' => contains_ignoring_case_b needle hay'
  end.

End Str.

(** An ASCII literal stands for its code points. *)
Coercion Str.of_string : string >-> Str.str.

(** ** The network and the exceptions it raises *)

(** The exceptions a request can raise.  [except Exception] catches the
    first three; [KeyboardInterrupt] and [SystemExit] derive from
    [BaseException] only and are caught by a bare [except:] alone. *)
Inductive exc : Type :=
| RequestException (msg : string)   (* requests.exceptions.*: SSLError, ConnectionError, Timeout, ... *)
| HTTPError (code : Z)              (* raised by raise_for_status *)
| OtherException (msg : string)     (* any other subclass of Exception *)
| KeyboardInterrupt
| SystemExit.

Definition is_Exception (e : exc) : bool :=
  match e with
  | RequestException _ | HTTPError _ | OtherException _ => true
  | KeyboardInterrupt | SystemExit => false
  end.

(** [str(e)].  The text requests composes for an [HTTPError] (status,
    reason phrase and address) is shortened to a fixed one; the script
    only prints it and stores it in the ['error'] entry. *)
Definition exc_str (e : exc) : string :=
  match e with
  | RequestException msg => msg
  | HTTPError _ => "HTTP Error"
  | OtherException msg => msg
  | KeyboardInterrupt => ""
  | SystemExit => ""
  end.

(** The messages the script hands to [send_discord_alert].  The two
    transition alerts carry a time stamp in the script, which is left out. *)
Inductive message : Type :=
| MonitorActive            (* "AMP Monitor is now active! ..." *)
| AlertOpen                (* "ALERT! AMP FREE IS NOW OPEN!" ... FULL to OPEN *)
| AlertFull                (* "AMP Free has returned to FULL status." *)
| StoppedManually          (* "AMP Monitor has been stopped manually." *)
| Crashed (err : string).  (* "AMP Monitor crashed with error: ..." *)

Definition WEBSITE_URL : string := "https://ampcode.com/news/amp-free-is-full-for-now".
(** The webhook address; its token is not repeated here. *)
Definition DISCORD_WEBHOOK : string := "https://discord.com/api/webhooks/...".
Definition CHECK_INTERVAL : Z := 900.

(** A call of [requests.get] or [requests.post].  [verify] is [true] for
    [verify=certifi.where()] and [false] for [verify=False]. *)
Inductive request : Type :=
| Get (url : string) (verify : bool) (timeout : Z)
| Post (url : string) (content : message) (username : string) (verify : bool) (timeout : Z).

Record response : Type := mkResponse {
  status_code : Z;
  text : Str.str
}.

Inductive net_outcome : Type :=
| Responds (r : response)
| Raises (e : exc).

(** The outside world: what the [k]-th request of the run meets. *)
Definition network : Type := nat -> request -> net_outcome.

(** What the program does that can be seen from outside. *)
Inductive event : Type :=
| EvRequest (r : request)
| EvSleep (seconds : Z).

(** ** Computations: a request counter, a trace and Python exceptions *)

Inductive result (A : Type) : Type :=
| Ok (a : A)
| Raise (e : exc).
Arguments Ok {A} a.
Arguments Raise {A} e.

(** A computation starts at request number [k] and gives its result, the
    events it produced and the next request number. *)
Definition M (A : Type) : Type := nat -> result A * list event * nat.

Definition ret {A} (a : A) : M A := fun k => (Ok a, [], k).

Definition raise {A} (e : exc) : M A := fun k => (Raise e, [], k).

Definition bind {A B} (m : M A) (f : A -> M B) : M B :=
  fun k =>
    match m k with
    | (Ok a, t, k') => let '(r, t', k'') := f a k' in (r, (t ++ t')%list, k'')
    | (Raise e, t, k') => (Raise e, t, k')
    end.

(** [try: m  except <class>: h], where [catches] says which exceptions the
    clause handles. *)
Definition try_except {A} (m : M A) (catches : exc -> bool) (h : exc -> M A) : M A :=
  fun k =>
    match m k with
    | (Ok a, t, k') => (Ok a, t, k')
    | (Raise e, t, k') =>
        if catches e
        then let '(r, t', k'') := h e k' in (r, (t ++ t')%list, k'')
        else (Raise e, t, k')
    end.

(** A bare [except:] catches everything. *)
Definition bare_except (e : exc) : bool := true.

Notation "x <- m ;; f" := (bind m (fun x => f))
  (at level 61, m at next level, right associativity).
Notation "m ;;; f" := (bind m (fun _ => f))
  (at level 61, right associativity).

Definition events_of {A} (x : result A * list event * nat) : list event := snd (fst x).
Definition result_of {A} (x : result A * list event * nat) : result A := fst (fst x).

(** The requests of a trace, in order. *)
Fixpoint requests (t : list event) : list request :=
  match t with
  | [] => []
  | EvRequest r :: t' => r :: requests t'
  | EvSleep _ :: t' => requests t'
  end.

(** The alerts of a trace: every call of [send_discord_alert] starts with
    one certificate-verified POST, so these are the messages handed to it. *)
Fixpoint alerts (t : list event) : list message :=
  match t with
  | [] => []
  | EvRequest (Post _ msg _ true _) :: t' => msg :: alerts t'
  | _ :: t' => alerts t'
  end.

(** ** The script *)

(** [PollResult]: the dictionary [check_website] returns, tagged by its
    ['success'] entry. *)
Inductive PollResult : Type :=
| PollOk (is_full is_open : bool) (page_text : Str.str)
| PollFailed (error : string).

Definition success (r : PollResult) : bool :=
  match r with
  | PollOk _ _ _ => true
  | PollFailed _ => false
  end.

(** [MonitorState]: the two variables [main] keeps across cycles.
    [previous_status] is [None], ['FULL'] or ['OPEN'] in the script. *)
Record MonitorState : Type := mkState {
  previous_status : option string;
  check_count : Z
}.

(** [previous_status == s] *)
Definition status_is (p : option string) (s : string) : bool :=
  match p with
  | Some x => String.eqb x s
  | None => false
  end.

(** [response.raise_for_status()] as the requests library has it: an
    [HTTPError] for a status code from 400 to 599, nothing otherwise. *)
Definition raise_for_status (r : response) : M unit :=
  if (400 <=? status_code r) && (status_code r <? 600)
  then raise (HTTPError (status_code r))
  else ret tt.

(** Lines 69-80 of [check_website]: the status indicators of the page
    text that [soup.get_text()] gave. *)
Definition extract (unicode_upper : Str.case_table) (soup_text : Str.str) : PollResult :=
  let page_text := Str.upper unicode_upper soup_text in
  let is_full := Str.contains "FULL" page_text in
  let is_open :=
    Str.any_in [Str.of_string "OPEN"; Str.of_string "AVAILABLE";
                Str.of_string "ACCEPTING"] page_text in
  PollOk is_full is_open (Str.take 300 page_text).

Section Script.

(** The network the run meets, [BeautifulSoup(html, 'html.parser').get_text()],
    and the case table of [str.upper()]. *)
Variable env : network.
Variable get_text : Str.str -> Str.str.
Variable unicode_upper : Str.case_table.

(** One [requests.get(...)] or [requests.post(...)] call. *)
Definition perform (req : request) : M response :=
  fun k =>
    match env k req with
    | Responds r => (Ok r, [EvRequest req], S k)
    | Raises e => (Raise e, [EvRequest req], S k)
    end.

(** [time.sleep(seconds)] *)
Definition sleep (seconds : Z) : M unit :=
  fun k => (Ok tt, [EvSleep seconds], k).

Definition send_discord_alert (msg : message) : M bool :=
  try_except
    (response <-
       try_except
         (perform (Post DISCORD_WEBHOOK msg "AMP Monitor" true 10))
         bare_except
         (fun _ => perform (Post DISCORD_WEBHOOK msg "AMP Monitor" false 10)) ;;
     if status_code response =? 204 then ret true else ret false)
    is_Exception
    (fun e => ret false).

Definition check_website : M PollResult :=
  try_except
    (response <-
       try_except
         (perform (Get WEBSITE_URL true 10))
         bare_except
         (fun _ => perform (Get WEBSITE_URL false 10)) ;;
     raise_for_status response ;;;
     ret (extract unicode_upper (get_text (text response))))
    is_Exception
    (fun e => ret (PollFailed (exc_str e))).

(** [main] up to the loop: the connection test, the start notice, and the
    two loop variables as they are initialised on lines 116-117.  The
    [current_status] computed from the test is only printed. *)
Definition startup : M MonitorState :=
  test_result <- check_website ;;
  let current_status :=
    match test_result with
    | PollOk is_full _ _ => Some (if is_full then "FULL" else "OPEN")
    | PollFailed _ => None
    end in
  send_discord_alert MonitorActive ;;;
  ret {| previous_status := None; check_count := 0 |}.

(** One pass through the body of [while True]. *)
Definition cycle (st : MonitorState) : M MonitorState :=
  let check_count' := check_count st + 1 in
  result <- check_website ;;
  st' <- match result with
         | PollOk is_full _ _ =>
             let current_status := if is_full then "FULL" else "OPEN" in
             (if status_is (previous_status st) "FULL" && negb is_full
              then send_discord_alert AlertOpen ;;; ret tt
              else if status_is (previous_status st) "OPEN" && is_full
              then send_discord_alert AlertFull ;;; ret tt
              else ret tt) ;;;
             ret {| previous_status := Some current_status;
                    check_count := check_count' |}
         | PollFailed _ =>
             ret {| previous_status := previous_status st;
                    check_count := check_count' |}
         end ;;
  sleep CHECK_INTERVAL ;;;
  ret st'.

(** A stretch of the loop in which every poll fails: from [st] at request
    number [k] to [st'] at request number [k']. *)
Inductive failed_polls : MonitorState -> nat -> MonitorState -> nat -> Prop :=
| failed_polls_none st k : failed_polls st k st k
| failed_polls_more st k err st1 t k1 st' k' :
    result_of (check_website k) = Ok (PollFailed err) ->
    cycle st k = (Ok st1, t, k1) ->
    failed_polls st1 k1 st' k' ->
    failed_polls st k st' k'.

(** The HTTP status the webhook POST of [send_discord_alert msg] receives
    at request number [k]: from the verified attempt, or from the fallback
    when the verified attempt raised; [None] when both raised. *)
Definition webhook_status (msg : message) (k : nat) : option Z :=
  match env k (Post DISCORD_WEBHOOK msg "AMP Monitor" true 10) with
  | Responds r => Some (status_code r)
  | Raises _ =>
      match env (S k) (Post DISCORD_WEBHOOK msg "AMP Monitor" false 10) with
      | Responds r => Some (status_code r)
      | Raises _ => None
      end
  end.

(** The first [n] passes of the loop. *)
Fixpoint loop (n : nat) (st : MonitorState) : M MonitorState :=
  match n with
  | O => ret st
  | S n' => st' <- cycle st ;; loop n' st'
  end.

(** [main()], cut after [n] passes of its loop. *)
Definition main (n : nat) : M MonitorState :=
  st <- startup ;; loop n st.

(** The [__main__] block around [main()]: an interrupt is reported as a
    manual stop, any other [Exception] as a crash, and a failure to report
    the crash is passed over. *)
Definition program (n : nat) : M unit :=
  try_except
    (main n ;;; ret tt)
    (fun e => match e with KeyboardInterrupt => true | _ => is_Exception e end)
    (fun e =>
       match e with
       | KeyboardInterrupt => send_discord_alert StoppedManually ;;; ret tt
       | _ =>
           try_except
             (send_discord_alert (Crashed (exc_str e)) ;;; ret tt)
             bare_except
             (fun _ => ret tt)
       end).

End Script.

(** ** Vocabulary of the properties *)

(** The status a successful poll stands for: FULL if [is_full], else OPEN. *)
Definition derived_status (is_full : bool) : string :=
  if is_full then "FULL" else "OPEN".

(** The values [previous_status] takes in a run: unset (the UNKNOWN of the
    state machine), ['FULL'] or ['OPEN']. *)
Definition known_status (p : option string) : Prop :=
  p = None \/ p = Some "FULL" \/ p = Some "OPEN".

(** The alert a successful poll calls for, by the two tests of the loop
    body on [previous_status] and [is_full]. *)
Definition transition_alert (previous : option string) (is_full : bool) : option message :=
  if status_is previous "FULL" && negb is_full then Some AlertOpen
  else if status_is previous "OPEN" && is_full then Some AlertFull
  else None.

(** What a received page makes of a poll: a failure when
    [raise_for_status] raises, the extracted indicators otherwise. *)
Definition page_result
    (get_text : Str.str -> Str.str) (unicode_upper : Str.case_table) (r : response)
    : PollResult :=
  if (400 <=? status_code r) && (status_code r <? 600)
  then PollFailed (exc_str (HTTPError (status_code r)))
  else extract unicode_upper (get_text (text r)).

Definition is_2xx (code : Z) : bool := (200 <=? code) && (code <? 300).

(** The two page requests and the two webhook requests of the script. *)
Definition get_verified : request := Get WEBSITE_URL true 10.
Definition get_unverified : request := Get WEBSITE_URL false 10.
Definition post_verified (msg : message) : request :=
  Post DISCORD_WEBHOOK msg "AMP Monitor" true 10.
Definition post_unverified (msg : message) : request :=
  Post DISCORD_WEBHOOK msg "AMP Monitor" false 10.

(** The [verify] argument of a request, and the same request with
    [verify=False]. *)
Definition verify_of (r : request) : bool :=
  match r with
  | Get _ v _ => v
  | Post _ _ _ v _ => v
  end.

Definition without_verification (r : request) : request :=
  match r with
  | Get url _ timeout => Get url false timeout
  | Post url content username _ timeout => Post url content username false timeout
  end.

(** The requests of a stretch of a run, from request number [k] to request
    number [k'], in which certificate verification is only ever given up
    for the request that has just raised with it. *)
Inductive fallbacks_justified (env : network) : nat -> list request -> nat -> Prop :=
| justified_done k : fallbacks_justified env k [] k
| justified_verified k r rs k' :
    verify_of r = true ->
    fallbacks_justified env (S k) rs k' ->
    fallbacks_justified env k (r :: rs) k'
| justified_fallback k r e rs k' :
    verify_of r = true ->
    env k r = Raises e ->
    fallbacks_justified env (S (S k)) rs k' ->
    fallbacks_justified env k (r :: without_verification r :: rs) k'.

(** What the two attempts of [check_website] make of the page request at
    request number [k]: the outcome of the verified attempt when it
    returns, of the fallback otherwise. *)
Definition page_outcome (env : network) (k : nat) : net_outcome :=
  match env k get_verified with
  | Responds r => Responds r
  | Raises _ => env (S k) get_unverified
  end.

(** The request number a computation ends at. *)
Definition next_of {A} (x : result A * list event * nat) : nat := snd x.

(** The [time.sleep] calls of a trace, in order. *)
Fixpoint sleeps (t : list event) : list Z :=
  match t with
  | [] => []
  | EvSleep s :: t' => s :: sleeps t'
  | EvRequest _ :: t' => sleeps t'
  end.


(** A computation that numbers its requests as it makes them and lets no
    exception of class [Exception] out: what it raises is what the last
    request it made, one without verification, met. *)
Definition swallows_errors {A} (env : network) (m : M A) : Prop :=
  forall k,
    next_of (m k) = (k + List.length (requests (events_of (m k))))%nat /\
    forall e,
      result_of (m k) = Raise e ->
      is_Exception e = false /\
      exists rs req,
        requests (events_of (m k)) = (rs ++ [req])%list /\
        verify_of req = false /\
        env (k + List.length rs)%nat req = Raises e.

(** A computation whose requests give up verification only after a
    verified attempt that raised. *)
Definition justified_run {A} (env : network) (m : M A) : Prop :=
  forall k, fallbacks_justified env k (requests (events_of (m k))) (next_of (m k)).

(** ** Concrete networks for the examples *)

(** A network that answers the requests of a run from a list, in order,
    and is down once the list is used up. *)
Definition scripted (outcomes : list net_outcome) : network :=
  fun k _ => nth k outcomes (Raises (RequestException "connection refused")).

Definition page (html : string) : net_outcome := Responds (mkResponse 200 html).
Definition delivered : net_outcome := Responds (mkResponse 204 "").
Definition down : net_outcome := Raises (RequestException "connection refused").

(** A page needs no markup stripping when it has no markup. *)
Definition plain_text (html : Str.str) : Str.str := html.

(** Three entries of the case table as Python has them: U+0131, the i
    without dot, gives I; U+FB00, the ff ligature, gives FF; U+00DF, the
    sharp s, gives SS.  The examples use no other character outside ASCII,
    and every other one is left as it is here. *)
Definition sample_case_table : Str.case_table :=
  fun c =>
    if (c =? 305)%N then [73%N]
    else if (c =? 64256)%N then [70%N; 70%N]
    else if (c =? 223)%N then [83%N; 83%N]
    else [c].

(** * Properties *)

(** ** Substring search and upper-casing *)

Module StrFacts.
Import Str.

Lemma upper_app (table : case_table) (a b : str) :
  upper table (a ++ b)%list = (upper table a ++ upper table b)%list.
Proof. unfold upper. apply flat_map_app. Qed.

Lemma prefix_app (n h : str) :
  prefix n h = true <-> exists post, h = (n ++ post)%list.
Proof.
  revert h; induction n as [|a n IH]; intros h.
  - cbn. destruct h; split; eauto.
  - destruct h as [|b h]; cbn.
    + split; [discriminate | intros [post H]; discriminate].
    + rewrite andb_true_iff, N.eqb_eq, IH. split.
      * intros [-> [post ->]]. exists post. reflexivity.
      * intros [post H]. injection H as -> ->. eauto.
Qed.

Lemma contains_spec (n h : str) :
  contains n h = true <-> exists pre post, h = (pre ++ n ++ post)%list.
Proof.
  induction h as [|b h IH]; cbn [contains].
  - rewrite orb_false_r, prefix_app. split.
    + intros [post H]. exists [], post. exact H.
    + intros (pre & post & H). destruct pre; cbn in H; [eauto | discriminate].
  - rewrite orb_true_iff, IH. rewrite (prefix_app n (b :: h)). split.
    + intros [[post H] | (pre & post & H)].
      * exists [], post. exact H.
      * exists (b :: pre), post. cbn. now rewrite H.
    + intros (pre & post & H). destruct pre as [|c pre]; cbn in H.
      * left. eauto.
      * right. injection H as _ H. eauto.
Qed.

(** Within ASCII the capital of a character is the same letter, and the
    same letter has the same capital. *)
Lemma ascii_upper_same_letter (c : N) : same_letter c (ascii_upper c).
Proof.
  unfold ascii_upper. destruct (is_ascii_lower c) eqn:H.
  - right. left. split; [exact H | reflexivity].
  - left. reflexivity.
Qed.

Lemma is_ascii_lower_bounds (c : N) :
  is_ascii_lower c = true <-> (97 <= c <= 122)%N.
Proof.
  unfold is_ascii_lower. rewrite andb_true_iff, !N.leb_le. reflexivity.
Qed.

Lemma same_letter_upper_char (table : case_table) (c d : N) :
  same_letter c d -> upper_char table c = upper_char table d.
Proof.
  assert (Hcap : forall x, is_ascii_lower x = true ->
                           upper_char table x = upper_char table (x - 32)%N).
  { intros x Hx. pose proof (proj1 (is_ascii_lower_bounds x) Hx) as Hb.
    unfold upper_char, ascii_upper. rewrite Hx.
    replace (x <? 128)%N with true by (symmetry; apply N.ltb_lt; lia).
    replace (x - 32 <? 128)%N with true by (symmetry; apply N.ltb_lt; lia).
    destruct (is_ascii_lower (x - 32)) eqn:H32; [|reflexivity].
    apply is_ascii_lower_bounds in H32. lia. }
  intros [-> | [[Hc ->] | [Hd ->]]].
  - reflexivity.
  - now apply Hcap.
  - symmetry. now apply Hcap.
Qed.

Lemma same_ignoring_case_upper (table : case_table) (a b : str) :
  same_ignoring_case a b -> upper table a = upper table b.
Proof.
  unfold upper. induction 1 as [|c d a b Hcd _ IH]; cbn [flat_map].
  - reflexivity.
  - now rewrite (same_letter_upper_char table c d Hcd), IH.
Qed.

(** A text that holds the needle ignoring case holds it after
    upper-casing, when upper-casing leaves the needle as it is. *)
Lemma contains_upper_intro (table : case_table) (n t : str) :
  upper table n = n ->
  contains_ignoring_case n t ->
  contains n (upper table t) = true.
Proof.
  intros Hn (pre & mid & post & -> & Hmid).
  apply contains_spec. exists (upper table pre), (upper table post).
  rewrite !upper_app, (same_ignoring_case_upper table mid n Hmid), Hn.
  reflexivity.
Qed.

(** Upper-casing an ASCII text works character by character. *)
Lemma upper_ascii (table : case_table) (t : str) :
  is_ascii t -> upper table t = List.map ascii_upper t.
Proof.
  unfold upper. induction 1 as [|c t Hc _ IH]; cbn [flat_map List.map].
  - reflexivity.
  - unfold upper_char at 1.
    replace (c <? 128)%N with true by (symmetry; now apply N.ltb_lt).
    cbn [app]. f_equal. exact IH.
Qed.

Lemma map_ascii_upper_same (mid n : str) :
  List.map ascii_upper mid = n -> same_ignoring_case mid n.
Proof.
  intros <-. induction mid as [|c mid IH]; cbn.
  - constructor.
  - constructor; [apply ascii_upper_same_letter | exact IH].
Qed.

(** In an ASCII text the upper-cased text holds the needle only where the
    text holds it ignoring case. *)
Lemma contains_upper_ascii (table : case_table) (n t : str) :
  is_ascii t ->
  contains n (upper table t) = true ->
  contains_ignoring_case n t.
Proof.
  intros Ht. rewrite (upper_ascii table t Ht), contains_spec.
  intros (pre & post & H).
  apply map_eq_app in H. destruct H as (pre' & rest & -> & _ & Hrest).
  apply map_eq_app in Hrest. destruct Hrest as (mid & post' & -> & Hmid & _).
  exists pre', mid, post'. split; [reflexivity|].
  now apply map_ascii_upper_same.
Qed.

(** The tests say what the three notions say. *)
Lemma same_letter_b_spec (c d : N) : same_letter_b c d = true <-> same_letter c d.
Proof.
  unfold same_letter_b, same_letter.
  rewrite !orb_true_iff, !andb_true_iff, !N.eqb_eq. intuition congruence.
Qed.

Lemma prefix_ignoring_case_b_spec (n h : str) :
  prefix_ignoring_case_b n h = true <->
  exists mid post, h = (mid ++ post)%list /\ same_ignoring_case mid n.
Proof.
  revert h; induction n as [|a n IH]; intros h.
  - cbn. split; [|reflexivity]. intros _. exists [], h. split; [reflexivity|constructor].
  - destruct h as [|b h]; cbn.
    + split; [discriminate|]. intros (mid & post & H & Hs).
      inversion Hs; subst. discriminate.
    + rewrite andb_true_iff, same_letter_b_spec, IH. split.
      * intros [Hb (mid & post & -> & Hs)].
        exists (b :: mid), post. split; [reflexivity | now constructor].
      * intros (mid & post & H & Hs). inversion Hs; subst.
        injection H as -> ->. split; eauto.
Qed.

Lemma contains_ignoring_case_b_spec (n h : str) :
  contains_ignoring_case_b n h = true <-> contains_ignoring_case n h.
Proof.
  unfold contains_ignoring_case.
  induction h as [|b h IH]; cbn [contains_ignoring_case_b].
  - rewrite orb_false_r, prefix_ignoring_case_b_spec. split.
    + intros (mid & post & H & Hs). exists [], mid, post. auto.
    + intros (pre & mid & post & H & Hs).
      destruct pre; cbn in H; [eauto | discriminate].
  - rewrite orb_true_iff, IH, (prefix_ignoring_case_b_spec n (b :: h)). split.
    + intros [(mid & post & H & Hs) | (pre & mid & post & H & Hs)].
      * exists [], mid, post. auto.
      * exists (b :: pre), mid, post. cbn. rewrite H. auto.
    + intros (pre & mid & post & H & Hs). destruct pre as [|c pre]; cbn in H.
      * left. eauto.
      * right. injection H as _ H. eauto.
Qed.

End StrFacts.





Example extract_full_page :
  extract sample_case_table "AMP Free is Full for now"
  = PollOk true false "AMP FREE IS FULL FOR NOW".
Proof. reflexivity. Qed.

Example extract_open_page :
  extract sample_case_table "Now accepting sign-ups"
  = PollOk false true "NOW ACCEPTING SIGN-UPS".
Proof. reflexivity. Qed.

Example extract_neither :
  extract sample_case_table "maintenance" = PollOk false false "MAINTENANCE".
Proof. reflexivity. Qed.

(** The ff ligature gives FF in upper case, and with it the word FULL. *)
Example extract_ligature :
  extract sample_case_table (64256%N :: Str.of_string "ull")
  = PollOk true false "FFULL".
Proof. reflexivity. Qed.

(** ** Traces *)

Lemma requests_app (t u : list event) :
  requests (t ++ u) = (requests t ++ requests u)%list.
Proof.
  induction t as [|[r|s] t IH]; simpl; [reflexivity | now rewrite IH | exact IH].
Qed.

Lemma alerts_app (t u : list event) :
  alerts (t ++ u) = (alerts t ++ alerts u)%list.
Proof.
  induction t as [|[[u0 v0 t0|u0 m n0 [|] t0]|s] t IH]; simpl;
    try exact IH; try reflexivity.
  now rewrite IH.
Qed.

(** ** The two functions that talk to the network *)

Section Calls.

Variable env : network.
Variable get_text : Str.str -> Str.str.
Variable unicode_upper : Str.case_table.

(** The three ways a call of [check_website] can go. *)
Lemma check_website_verified_responds (k : nat) (r : response) :
  env k get_verified = Responds r ->
  check_website env get_text unicode_upper k = (Ok (page_result get_text unicode_upper r), [EvRequest get_verified], S k).
Proof.
  intros H.
  unfold check_website, try_except, bind, perform, page_result.
  fold get_verified. rewrite H.
  unfold raise_for_status.
  destruct ((400 <=? status_code r) && (status_code r <? 600)); reflexivity.
Qed.

Lemma check_website_fallback_responds (k : nat) (e : exc) (r : response) :
  env k get_verified = Raises e ->
  env (S k) get_unverified = Responds r ->
  check_website env get_text unicode_upper k
  = (Ok (page_result get_text unicode_upper r),
     [EvRequest get_verified; EvRequest get_unverified], S (S k)).
Proof.
  intros H1 H2.
  unfold check_website, try_except, bind, perform, page_result.
  fold get_verified get_unverified. rewrite H1. cbn [bare_except]. rewrite H2.
  unfold raise_for_status.
  destruct ((400 <=? status_code r) && (status_code r <? 600)); reflexivity.
Qed.

Lemma check_website_fallback_raises (k : nat) (e e' : exc) :
  env k get_verified = Raises e ->
  env (S k) get_unverified = Raises e' ->
  check_website env get_text unicode_upper k
  = (if is_Exception e' then Ok (PollFailed (exc_str e')) else Raise e',
     [EvRequest get_verified; EvRequest get_unverified], S (S k)).
Proof.
  intros H1 H2.
  unfold check_website, try_except, bind, perform.
  fold get_verified get_unverified. rewrite H1. cbn [bare_except]. rewrite H2.
  destruct (is_Exception e'); reflexivity.
Qed.

(** The same three ways for [send_discord_alert]. *)
Lemma send_verified_responds (msg : message) (k : nat) (r : response) :
  env k (post_verified msg) = Responds r ->
  send_discord_alert env msg k
  = (Ok (status_code r =? 204), [EvRequest (post_verified msg)], S k).
Proof.
  intros H.
  unfold send_discord_alert, try_except, bind, perform.
  fold (post_verified msg). rewrite H.
  destruct (status_code r =? 204); reflexivity.
Qed.

Lemma send_fallback_responds (msg : message) (k : nat) (e : exc) (r : response) :
  env k (post_verified msg) = Raises e ->
  env (S k) (post_unverified msg) = Responds r ->
  send_discord_alert env msg k
  = (Ok (status_code r =? 204),
     [EvRequest (post_verified msg); EvRequest (post_unverified msg)], S (S k)).
Proof.
  intros H1 H2.
  unfold send_discord_alert, try_except, bind, perform.
  fold (post_verified msg) (post_unverified msg).
  rewrite H1. cbn [bare_except]. rewrite H2.
  destruct (status_code r =? 204); reflexivity.
Qed.

Lemma send_fallback_raises (msg : message) (k : nat) (e e' : exc) :
  env k (post_verified msg) = Raises e ->
  env (S k) (post_unverified msg) = Raises e' ->
  send_discord_alert env msg k
  = (if is_Exception e' then Ok false else Raise e',
     [EvRequest (post_verified msg); EvRequest (post_unverified msg)], S (S k)).
Proof.
  intros H1 H2.
  unfold send_discord_alert, try_except, bind, perform.
  fold (post_verified msg) (post_unverified msg).
  rewrite H1. cbn [bare_except]. rewrite H2.
  destruct (is_Exception e'); reflexivity.
Qed.

(** A poll posts nothing, and a call of [send_discord_alert] counts as one
    alert however many attempts it makes. *)
Lemma check_website_no_alert (k : nat) : alerts (events_of (check_website env get_text unicode_upper k)) = [].
Proof.
  destruct (env k get_verified) as [r|e] eqn:H1.
  - now rewrite (check_website_verified_responds k r H1).
  - destruct (env (S k) get_unverified) as [r|e'] eqn:H2.
    + now rewrite (check_website_fallback_responds k e r H1 H2).
    + now rewrite (check_website_fallback_raises k e e' H1 H2).
Qed.

Lemma send_one_alert (msg : message) (k : nat) :
  alerts (events_of (send_discord_alert env msg k)) = [msg].
Proof.
  destruct (env k (post_verified msg)) as [r|e] eqn:H1.
  - now rewrite (send_verified_responds msg k r H1).
  - destruct (env (S k) (post_unverified msg)) as [r|e'] eqn:H2.
    + now rewrite (send_fallback_responds msg k e r H1 H2).
    + now rewrite (send_fallback_raises msg k e e' H1 H2).
Qed.

End Calls.

(** ** The fallback without certificate verification *)

(** C9: a call of [check_website] makes the verified request; when that
    request raises it makes one request without verification, and in no
    case any request after it. *)
Theorem check_website_single_fallback
    (env : network) (get_text : Str.str -> Str.str) (unicode_upper : Str.case_table)
    (k : nat) :
  requests (events_of (check_website env get_text unicode_upper k))
  = match env k get_verified with
    | Responds _ => [get_verified]
    | Raises _ => [get_verified; get_unverified]
    end.
Proof.
  destruct (env k get_verified) as [r|e] eqn:H1.
  - now rewrite (check_website_verified_responds env get_text unicode_upper k r H1).
  - destruct (env (S k) get_unverified) as [r|e'] eqn:H2.
    + now rewrite (check_website_fallback_responds env get_text unicode_upper k e r H1 H2).
    + now rewrite (check_website_fallback_raises env get_text unicode_upper k e e' H1 H2).
Qed.

(** C10: in [check_website] and in [send_discord_alert] alike, whatever
    exception the verified attempt raises, of class [Exception] or not,
    the request without verification follows. *)
Theorem fallback_on_any_exception
    (env : network) (get_text : Str.str -> Str.str) (unicode_upper : Str.case_table)
    (k : nat) (e : exc) (msg : message) :
  (env k get_verified = Raises e ->
   requests (events_of (check_website env get_text unicode_upper k))
   = [get_verified; get_unverified]) /\
  (env k (post_verified msg) = Raises e ->
   requests (events_of (send_discord_alert env msg k))
   = [post_verified msg; post_unverified msg]).
Proof.
  split; intros H1.
  - destruct (env (S k) get_unverified) as [r|e'] eqn:H2.
    + now rewrite (check_website_fallback_responds env get_text unicode_upper k e r H1 H2).
    + now rewrite (check_website_fallback_raises env get_text unicode_upper k e e' H1 H2).
  - destruct (env (S k) (post_unverified msg)) as [r|e'] eqn:H2.
    + now rewrite (send_fallback_responds env msg k e r H1 H2).
    + now rewrite (send_fallback_raises env msg k e e' H1 H2).
Qed.

Lemma fallback_on_any_exception_witness :
  requests (events_of (check_website
                         (scripted [Raises KeyboardInterrupt; page "full"]) plain_text sample_case_table 0%nat))
  = [get_verified; get_unverified] /\
  requests (events_of (send_discord_alert
                         (scripted [Raises SystemExit; delivered]) AlertOpen 0%nat))
  = [post_verified AlertOpen; post_unverified AlertOpen].
Proof.
  split.
  - apply (proj1 (fallback_on_any_exception
                    (scripted [Raises KeyboardInterrupt; page "full"]) plain_text sample_case_table 0%nat
                    KeyboardInterrupt AlertOpen)).
    reflexivity.
  - apply (proj2 (fallback_on_any_exception
                    (scripted [Raises SystemExit; delivered]) plain_text sample_case_table 0%nat
                    SystemExit AlertOpen)).
    reflexivity.
Defined.

(** ** What [send_discord_alert] returns *)

(** An exception on both attempts is not always swallowed: the bare
    [except:] takes the first, whatever it is, but [except Exception] lets
    an interrupt on the fallback through. *)
Lemma send_discord_alert_interrupt_escapes :
  let env := scripted [Raises (RequestException "certificate verify failed");
                       Raises KeyboardInterrupt] in
  env 0%nat (post_verified AlertOpen)
  = Raises (RequestException "certificate verify failed") /\
  env 1%nat (post_unverified AlertOpen) = Raises KeyboardInterrupt /\
  result_of (send_discord_alert env AlertOpen 0%nat) = Raise KeyboardInterrupt /\
  result_of (send_discord_alert env AlertOpen 0%nat) <> Ok false.
Proof. cbv zeta. repeat split; try reflexivity. discriminate. Qed.

(** C3, as the code has it: [send_discord_alert] returns [True] exactly
    when the POST (the verified attempt, or the fallback when the verified
    attempt raised) receives status 204; any other status makes it return
    [False], and so does an exception of class [Exception] on the fallback;
    an exception outside that class on the fallback reaches the caller. *)
Theorem send_discord_alert_result (env : network) (msg : message) (k : nat) :
  (result_of (send_discord_alert env msg k) = Ok true <->
   webhook_status env msg k = Some 204) /\
  (forall code, webhook_status env msg k = Some code -> code <> 204 ->
                result_of (send_discord_alert env msg k) = Ok false) /\
  (forall e e',
      env k (post_verified msg) = Raises e ->
      env (S k) (post_unverified msg) = Raises e' ->
      result_of (send_discord_alert env msg k)
      = if is_Exception e' then Ok false else Raise e').
Proof.
  unfold webhook_status. fold (post_verified msg) (post_unverified msg).
  destruct (env k (post_verified msg)) as [r|e] eqn:H1.
  - rewrite (send_verified_responds env msg k r H1). cbn [result_of fst].
    repeat split.
    + intros H. injection H as H. apply Z.eqb_eq in H. now rewrite H.
    + intros H. injection H as H. now rewrite H.
    + intros code H Hne. injection H as H. subst code.
      apply Z.eqb_neq in Hne. now rewrite Hne.
    + intros ? ? H. discriminate.
  - destruct (env (S k) (post_unverified msg)) as [r|e'] eqn:H2.
    + rewrite (send_fallback_responds env msg k e r H1 H2). cbn [result_of fst].
      repeat split.
      * intros H. injection H as H. apply Z.eqb_eq in H. now rewrite H.
      * intros H. injection H as H. now rewrite H.
      * intros code H Hne. injection H as H. subst code.
        apply Z.eqb_neq in Hne. now rewrite Hne.
      * intros ? ? _ H. discriminate.
    + rewrite (send_fallback_raises env msg k e e' H1 H2). cbn [result_of fst].
      repeat split.
      * destruct (is_Exception e'); discriminate.
      * discriminate.
      * discriminate.
      * intros ? e2 _ H. now injection H as ->.
Qed.

Lemma send_discord_alert_result_witness :
  result_of (send_discord_alert (scripted [delivered]) MonitorActive 0%nat) = Ok true /\
  result_of (send_discord_alert (scripted [Responds (mkResponse 200 "ok")])
                                MonitorActive 0%nat) = Ok false /\
  result_of (send_discord_alert (scripted [down; down]) MonitorActive 0%nat) = Ok false.
Proof.
  split; [|split].
  - apply (proj1 (send_discord_alert_result (scripted [delivered]) MonitorActive 0%nat)).
    reflexivity.
  - apply (proj1 (proj2 (send_discord_alert_result
                           (scripted [Responds (mkResponse 200 "ok")])
                           MonitorActive 0%nat)) 200).
    + reflexivity.
    + discriminate.
  - apply (proj2 (proj2 (send_discord_alert_result
                           (scripted [down; down]) MonitorActive 0%nat))
             (RequestException "connection refused")
             (RequestException "connection refused")); reflexivity.
Defined.

(** The interrupt that leaves [send_discord_alert] ends [main] and is
    reported by the [__main__] block as a manual stop. *)
Example interrupt_during_alert_stops_monitor :
  let env := scripted [page "full"; delivered; page "full"; page "open";
                       Raises (RequestException "certificate verify failed");
                       Raises KeyboardInterrupt;
                       delivered] in
  result_of (main env plain_text sample_case_table 2 0%nat) = Raise KeyboardInterrupt /\
  result_of (program env plain_text sample_case_table 2 0%nat) = Ok tt /\
  alerts (events_of (program env plain_text sample_case_table 2 0%nat))
  = [MonitorActive; AlertOpen; StoppedManually].
Proof. cbv zeta. repeat split. Qed.

(** ** HTTP status codes in [check_website] *)

(** A response that is neither 2xx nor an error for [raise_for_status],
    such as 304, makes a successful poll. *)
Lemma not_modified_poll_succeeds :
  let env := scripted [Responds (mkResponse 304 "")] in
  env 0%nat get_verified = Responds (mkResponse 304 "") /\
  is_2xx 304 = false /\
  check_website env plain_text sample_case_table 0%nat
  = (Ok (PollOk false false ""), [EvRequest get_verified], 1%nat).
Proof. cbv zeta. repeat split. Qed.

(** C7, as the code has it: a response with a status code from 400 to 599
    makes the poll a failure, and no request follows the one that received
    it: the fallback is not made because of the status. *)
Theorem http_error_status_fails_poll
    (env : network) (get_text : Str.str -> Str.str) (unicode_upper : Str.case_table)
    (k : nat) (r : response) :
  400 <= status_code r < 600 ->
  (env k get_verified = Responds r ->
   check_website env get_text unicode_upper k
   = (Ok (PollFailed (exc_str (HTTPError (status_code r)))),
      [EvRequest get_verified], S k)) /\
  (forall e,
      env k get_verified = Raises e ->
      env (S k) get_unverified = Responds r ->
      check_website env get_text unicode_upper k
      = (Ok (PollFailed (exc_str (HTTPError (status_code r)))),
         [EvRequest get_verified; EvRequest get_unverified], S (S k))).
Proof.
  intros Hcode.
  assert (Hp : page_result get_text unicode_upper r
               = PollFailed (exc_str (HTTPError (status_code r)))).
  { unfold page_result.
    replace (400 <=? status_code r) with true by (symmetry; apply Z.leb_le; lia).
    replace (status_code r <? 600) with true by (symmetry; apply Z.ltb_lt; lia).
    reflexivity. }
  split.
  - intros H. now rewrite (check_website_verified_responds env get_text unicode_upper k r H), Hp.
  - intros e H1 H2.
    now rewrite (check_website_fallback_responds env get_text unicode_upper k e r H1 H2), Hp.
Qed.

Lemma http_error_status_fails_poll_witness :
  check_website (scripted [Responds (mkResponse 503 "full")]) plain_text sample_case_table 0%nat
  = (Ok (PollFailed "HTTP Error"), [EvRequest get_verified], 1%nat).
Proof.
  apply (proj1 (http_error_status_fails_poll
                  (scripted [Responds (mkResponse 503 "full")]) plain_text sample_case_table 0%nat
                  (mkResponse 503 "full") ltac:(simpl; lia))).
  reflexivity.
Defined.

(** ** One pass of the loop *)

Section Loop.

Variable env : network.
Variable get_text : Str.str -> Str.str.
Variable unicode_upper : Str.case_table.

Lemma cycle_poll_raises (st : MonitorState) (k : nat) e t k' :
  check_website env get_text unicode_upper k = (Raise e, t, k') ->
  cycle env get_text unicode_upper st k = (Raise e, t, k').
Proof. intros H. unfold cycle, bind. now rewrite H. Qed.

Lemma cycle_poll_failed (st : MonitorState) (k : nat) err t k' :
  check_website env get_text unicode_upper k = (Ok (PollFailed err), t, k') ->
  cycle env get_text unicode_upper st k
  = (Ok {| previous_status := previous_status st; check_count := check_count st + 1 |},
     (t ++ [EvSleep CHECK_INTERVAL])%list, k').
Proof. intros H. unfold cycle, bind, ret, sleep. now rewrite H. Qed.

Lemma cycle_poll_ok (st : MonitorState) (k : nat) f o s t k' :
  check_website env get_text unicode_upper k = (Ok (PollOk f o s), t, k') ->
  let st' := {| previous_status := Some (derived_status f);
                check_count := check_count st + 1 |} in
  cycle env get_text unicode_upper st k
  = match transition_alert (previous_status st) f with
    | None => (Ok st', (t ++ [EvSleep CHECK_INTERVAL])%list, k')
    | Some msg =>
        match send_discord_alert env msg k' with
        | (Ok _, t', k'') => (Ok st', (t ++ t' ++ [EvSleep CHECK_INTERVAL])%list, k'')
        | (Raise e, t', k'') => (Raise e, (t ++ t')%list, k'')
        end
    end.
Proof.
  intros H st'. unfold cycle, bind, ret, sleep, transition_alert. rewrite H.
  destruct (status_is (previous_status st) "FULL" && negb f).
  - destruct (send_discord_alert env AlertOpen k') as [[[b|e] t'] k''];
      cbn; rewrite ?app_nil_r; reflexivity.
  - destruct (status_is (previous_status st) "OPEN" && f).
    + destruct (send_discord_alert env AlertFull k') as [[[b|e] t'] k''];
        cbn; rewrite ?app_nil_r; reflexivity.
    + reflexivity.
Qed.

(** The alerts of a pass. *)
Lemma cycle_alerts (st : MonitorState) (k : nat) :
  alerts (events_of (cycle env get_text unicode_upper st k))
  = match result_of (check_website env get_text unicode_upper k) with
    | Ok (PollOk f _ _) =>
        match transition_alert (previous_status st) f with
        | Some msg => [msg]
        | None => []
        end
    | _ => []
    end.
Proof.
  pose proof (check_website_no_alert env get_text unicode_upper k) as Hq.
  destruct (check_website env get_text unicode_upper k) as [[[[f o s|err]|e] t] k'] eqn:H;
    cbn [events_of result_of fst snd] in *.
  - rewrite (cycle_poll_ok st k f o s t k' H).
    destruct (transition_alert (previous_status st) f) as [msg|].
    + pose proof (send_one_alert env msg k') as Hs.
      destruct (send_discord_alert env msg k') as [[[b|e] t'] k''];
        cbn [events_of fst snd] in *;
        rewrite !alerts_app, Hq, Hs; reflexivity.
    + cbn [events_of fst snd]. now rewrite alerts_app, Hq.
  - rewrite (cycle_poll_failed st k err t k' H). cbn [events_of fst snd].
    now rewrite alerts_app, Hq.
  - now rewrite (cycle_poll_raises st k e t k' H).
Qed.

(** The state after a pass that goes through. *)
Lemma cycle_state (st st' : MonitorState) (k : nat) t k' :
  cycle env get_text unicode_upper st k = (Ok st', t, k') ->
  check_count st' = check_count st + 1 /\
  match result_of (check_website env get_text unicode_upper k) with
  | Ok (PollOk f _ _) => previous_status st' = Some (derived_status f)
  | Ok (PollFailed _) => previous_status st' = previous_status st
  | Raise _ => False
  end.
Proof.
  destruct (check_website env get_text unicode_upper k) as [[[[f o s|err]|e] t0] k0] eqn:H;
    cbn [result_of fst].
  - rewrite (cycle_poll_ok st k f o s t0 k0 H).
    destruct (transition_alert (previous_status st) f) as [msg|].
    + destruct (send_discord_alert env msg k0) as [[[b|e] t'] k''];
        intros E; [|discriminate].
      injection E as <- _ _. split; reflexivity.
    + intros E. injection E as <- _ _. split; reflexivity.
  - rewrite (cycle_poll_failed st k err t0 k0 H).
    intros E. injection E as <- _ _. split; reflexivity.
  - rewrite (cycle_poll_raises st k e t0 k0 H). discriminate.
Qed.

Lemma transition_alert_known (p : option string) (f : bool) :
  known_status p ->
  (transition_alert p f <> None <-> p <> None /\ p <> Some (derived_status f)).
Proof.
  intros [-> | [-> | ->]]; destruct f; cbn; split;
    try (intros [H1 H2]; congruence); try congruence;
    intros _; split; discriminate.
Qed.

Lemma transition_alert_unset (f : bool) : transition_alert None f = None.
Proof. reflexivity. Qed.

(** [previous_status] stays among unset, FULL and OPEN. *)
Lemma cycle_known_status (st st' : MonitorState) (k : nat) t k' :
  known_status (previous_status st) ->
  cycle env get_text unicode_upper st k = (Ok st', t, k') ->
  known_status (previous_status st').
Proof.
  intros Hk Hc. destruct (cycle_state st st' k t k' Hc) as [_ Hp].
  destruct (result_of (check_website env get_text unicode_upper k)) as [[f o s|err]|e].
  - rewrite Hp. destruct f; [right; left | right; right]; reflexivity.
  - now rewrite Hp.
  - contradiction.
Qed.

Lemma loop_known_status (n : nat) (st st' : MonitorState) (k : nat) t k' :
  known_status (previous_status st) ->
  loop env get_text unicode_upper n st k = (Ok st', t, k') ->
  known_status (previous_status st').
Proof.
  revert st k t k'. induction n as [|n IH]; intros st k t k' Hk.
  - cbn. intros E. now injection E as <- _ _.
  - cbn [loop]. unfold bind.
    destruct (cycle env get_text unicode_upper st k) as [[[st1|e] t1] k1] eqn:Hc; [|discriminate].
    destruct (loop env get_text unicode_upper n st1 k1) as [[r t2] k2] eqn:Hl.
    intros E. injection E as -> _ _.
    eapply IH; [|exact Hl]. eapply cycle_known_status; eauto.
Qed.

(** Failed polls keep [previous_status]. *)
Lemma failed_polls_previous (st st' : MonitorState) (k k' : nat) :
  failed_polls env get_text unicode_upper st k st' k' ->
  previous_status st' = previous_status st.
Proof.
  induction 1 as [|st k err st1 t k1 st' k' Hpoll Hc _ IH].
  - reflexivity.
  - rewrite IH. destruct (cycle_state st st1 k t k1 Hc) as [_ Hp].
    now rewrite Hpoll in Hp.
Qed.

(** The start of [main]. *)
Lemma startup_cases (k : nat) :
  match check_website env get_text unicode_upper k with
  | (Ok _, t, k') =>
      match send_discord_alert env MonitorActive k' with
      | (Ok _, t', k'') =>
          startup env get_text unicode_upper k
          = (Ok {| previous_status := None; check_count := 0 |}, (t ++ t')%list, k'')
      | (Raise e, t', k'') =>
          startup env get_text unicode_upper k = (Raise e, (t ++ t')%list, k'')
      end
  | (Raise e, t, k') => startup env get_text unicode_upper k = (Raise e, t, k')
  end.
Proof.
  unfold startup, bind, ret.
  destruct (check_website env get_text unicode_upper k) as [[[r|e] t] k']; [|reflexivity].
  destruct (send_discord_alert env MonitorActive k') as [[[b|e] t'] k''];
    cbn; rewrite ?app_nil_r; reflexivity.
Qed.

Lemma startup_state (st : MonitorState) (k : nat) t k' :
  startup env get_text unicode_upper k = (Ok st, t, k') ->
  st = {| previous_status := None; check_count := 0 |}.
Proof.
  pose proof (startup_cases k) as H.
  destruct (check_website env get_text unicode_upper k) as [[[r|e] t0] k0].
  - destruct (send_discord_alert env MonitorActive k0) as [[[b|e] t1] k1];
      rewrite H; intros E; [now injection E as <- _ _ | discriminate].
  - rewrite H. discriminate.
Qed.

Lemma startup_alerts (k : nat) :
  alerts (events_of (startup env get_text unicode_upper k))
  = match result_of (check_website env get_text unicode_upper k) with
    | Ok _ => [MonitorActive]
    | Raise _ => []
    end.
Proof.
  pose proof (startup_cases k) as H.
  pose proof (check_website_no_alert env get_text unicode_upper k) as Hq.
  destruct (check_website env get_text unicode_upper k) as [[[r|e] t0] k0];
    cbn [events_of result_of fst snd] in *.
  - pose proof (send_one_alert env MonitorActive k0) as Hs.
    destruct (send_discord_alert env MonitorActive k0) as [[[b|e] t1] k1];
      rewrite H; cbn [events_of fst snd] in *; now rewrite alerts_app, Hq, Hs.
  - now rewrite H.
Qed.

(** Every state a run of [main] reaches has a known [previous_status]. *)
Lemma main_known_status (n : nat) (st : MonitorState) (k : nat) t k' :
  main env get_text unicode_upper n k = (Ok st, t, k') ->
  known_status (previous_status st).
Proof.
  unfold main, bind.
  destruct (startup env get_text unicode_upper k) as [[[st0|e] t0] k0] eqn:Hs; [|discriminate].
  destruct (loop env get_text unicode_upper n st0 k0) as [[r t1] k1] eqn:Hl.
  intros E. injection E as -> _ _.
  eapply loop_known_status; [|exact Hl].
  rewrite (startup_state st0 k t0 k0 Hs). left. reflexivity.
Qed.

End Loop.

(** ** Transition alerts *)

(** C1: in a pass of the loop an alert is sent exactly when the poll
    succeeded, [previous_status] is set, and the status derived from the
    poll differs from it. *)
Theorem transition_alert_iff
    (env : network) (get_text : Str.str -> Str.str) (unicode_upper : Str.case_table)
    (st : MonitorState) (k : nat) :
  known_status (previous_status st) ->
  (alerts (events_of (cycle env get_text unicode_upper st k)) <> [] <->
   exists is_full is_open page_text,
     result_of (check_website env get_text unicode_upper k) = Ok (PollOk is_full is_open page_text) /\
     previous_status st <> None /\
     previous_status st <> Some (derived_status is_full)).
Proof.
  intros Hk. rewrite cycle_alerts.
  destruct (result_of (check_website env get_text unicode_upper k)) as [[f o s|err]|e].
  - pose proof (transition_alert_known (previous_status st) f Hk) as Ht.
    split.
    + intros Hne. exists f, o, s. split; [reflexivity|].
      apply Ht. destruct (transition_alert (previous_status st) f); congruence.
    + intros (f' & o' & s' & E & Hp). injection E as <- _ _.
      apply Ht in Hp.
      destruct (transition_alert (previous_status st) f); congruence.
  - split; [congruence|]. intros (? & ? & ? & E & _). discriminate.
  - split; [congruence|]. intros (? & ? & ? & E & _). discriminate.
Qed.

Lemma transition_alert_iff_witness :
  alerts (events_of (cycle (scripted [page "Now open"; delivered]) plain_text sample_case_table
                           {| previous_status := Some "FULL"; check_count := 3 |}
                           0%nat)) <> [].
Proof.
  apply (proj2 (transition_alert_iff
                  (scripted [page "Now open"; delivered]) plain_text sample_case_table
                  {| previous_status := Some "FULL"; check_count := 3 |} 0%nat
                  (or_intror (or_introl eq_refl)))).
  exists false, true, "NOW OPEN".
  split; [reflexivity|]. split; discriminate.
Defined.

Example five_polls_two_alerts :
  alerts (events_of
            (loop (scripted [page "full"; page "Full"; page "open"; delivered;
                             page "OPEN"; page "FULL"; delivered])
                  plain_text sample_case_table 5 {| previous_status := None; check_count := 0 |} 0%nat))
  = [AlertOpen; AlertFull].
Proof. reflexivity. Qed.

(** ** Failed polls *)



(** ** The state of the monitor *)

(** The pass of a failed poll still counts the check. *)
Lemma failed_poll_changes_state :
  let env := scripted [] in
  let st := {| previous_status := None; check_count := 0 |} in
  result_of (check_website env plain_text sample_case_table 0%nat) = Ok (PollFailed "connection refused") /\
  result_of (cycle env plain_text sample_case_table st 0%nat)
  = Ok {| previous_status := None; check_count := 1 |} /\
  {| previous_status := None; check_count := 1 |} <> st.
Proof. cbv zeta. repeat split; try reflexivity. discriminate. Qed.

(** C5, as the code has it: a pass that goes through adds one to
    [check_count] whatever the poll gave; it sets [previous_status] to the
    derived status when the poll succeeded and leaves it when the poll
    failed. *)
Theorem monitor_state_update
    (env : network) (get_text : Str.str -> Str.str) (unicode_upper : Str.case_table)
    (st st' : MonitorState) (k : nat) (t : list event) (k' : nat) :
  cycle env get_text unicode_upper st k = (Ok st', t, k') ->
  check_count st' = check_count st + 1 /\
  (forall err,
      result_of (check_website env get_text unicode_upper k) = Ok (PollFailed err) ->
      previous_status st' = previous_status st) /\
  (forall is_full is_open page_text,
      result_of (check_website env get_text unicode_upper k) = Ok (PollOk is_full is_open page_text) ->
      previous_status st' = Some (derived_status is_full)).
Proof.
  intros Hc. destruct (cycle_state env get_text unicode_upper st st' k t k' Hc) as [Hn Hp].
  split; [exact Hn|]. split.
  - intros err E. now rewrite E in Hp.
  - intros f o s E. now rewrite E in Hp.
Qed.

Lemma monitor_state_update_witness :
  let st := {| previous_status := Some "FULL"; check_count := 7 |} in
  let st' := {| previous_status := Some "FULL"; check_count := 8 |} in
  cycle (scripted [down; down]) plain_text sample_case_table st 0%nat
  = (Ok st',
     [EvRequest get_verified; EvRequest get_unverified; EvSleep CHECK_INTERVAL],
     2%nat) /\
  check_count st' = check_count st + 1 /\
  previous_status st' = previous_status st.
Proof.
  cbv zeta. split; [reflexivity|].
  destruct (monitor_state_update
              (scripted [down; down]) plain_text sample_case_table
              {| previous_status := Some "FULL"; check_count := 7 |}
              {| previous_status := Some "FULL"; check_count := 8 |}
              0%nat
              [EvRequest get_verified; EvRequest get_unverified;
               EvSleep CHECK_INTERVAL]
              2%nat eq_refl) as (Hn & Hfail & _).
  split; [exact Hn|].
  exact (Hfail "connection refused" eq_refl).
Defined.

(** ** The start of the monitor *)

(** The status the connection test derives does not reach [previous_status]. *)
Lemma startup_drops_test_status :
  let env := scripted [page "AMP Free is full"; delivered] in
  result_of (check_website env plain_text sample_case_table 0%nat)
  = Ok (PollOk true false "AMP FREE IS FULL") /\
  exists st,
    result_of (startup env plain_text sample_case_table 0%nat) = Ok st /\
    previous_status st <> Some (derived_status true).
Proof.
  cbv zeta. split; [reflexivity|].
  eexists. split; [reflexivity|]. discriminate.
Qed.

(** C6, as the code has it: whatever the connection test gave, the loop
    is entered with [previous_status] unset and [check_count] zero. *)
Theorem startup_previous_status_unset
    (env : network) (get_text : Str.str -> Str.str) (unicode_upper : Str.case_table)
    (st : MonitorState) (k : nat) (t : list event) (k' : nat) :
  startup env get_text unicode_upper k = (Ok st, t, k') ->
  previous_status st = None /\ check_count st = 0.
Proof.
  intros H. rewrite (startup_state env get_text unicode_upper st k t k' H). split; reflexivity.
Qed.

Lemma startup_previous_status_unset_witness :
  previous_status {| previous_status := None; check_count := 0 |} = None /\
  check_count {| previous_status := None; check_count := 0 |} = 0.
Proof.
  exact (startup_previous_status_unset
           (scripted [page "AMP Free is full"; delivered]) plain_text sample_case_table
           {| previous_status := None; check_count := 0 |} 0%nat
           [EvRequest get_verified; EvRequest (post_verified MonitorActive)] 2%nat
           eq_refl).
Defined.

(** C8: at the start only the start notice is sent, whether the connection
    test succeeded or failed; and the pass of the loop that follows the
    start and any number of failed polls, the one that can hold the first
    successful poll, sends no alert. *)
Theorem first_observation_no_alert
    (env : network) (get_text : Str.str -> Str.str) (unicode_upper : Str.case_table)
    (k : nat) :
  (forall r,
      result_of (check_website env get_text unicode_upper k) = Ok r ->
      alerts (events_of (startup env get_text unicode_upper k)) = [MonitorActive]) /\
  (forall st0 t k1 st k2,
      startup env get_text unicode_upper k = (Ok st0, t, k1) ->
      failed_polls env get_text unicode_upper st0 k1 st k2 ->
      alerts (events_of (cycle env get_text unicode_upper st k2)) = []).
Proof.
  split.
  - intros r H. now rewrite startup_alerts, H.
  - intros st0 t k1 st k2 Hs Hf.
    rewrite cycle_alerts.
    rewrite (failed_polls_previous env get_text unicode_upper st0 st k1 k2 Hf).
    rewrite (startup_state env get_text unicode_upper st0 k t k1 Hs). cbn [previous_status].
    destruct (result_of (check_website env get_text unicode_upper k2)) as [[f o s|err]|e];
      reflexivity.
Qed.

Lemma first_observation_no_alert_witness :
  let env := scripted [down; down; delivered; down; down; page "open"] in
  alerts (events_of (startup env plain_text sample_case_table 0%nat)) = [MonitorActive] /\
  alerts (events_of (cycle env plain_text sample_case_table
                           {| previous_status := None; check_count := 1 |} 5%nat)) = [].
Proof.
  cbv zeta. split.
  - apply (proj1 (first_observation_no_alert
                    (scripted [down; down; delivered; down; down; page "open"])
                    plain_text sample_case_table 0%nat) (PollFailed "connection refused")).
    reflexivity.
  - apply (proj2 (first_observation_no_alert
                    (scripted [down; down; delivered; down; down; page "open"])
                    plain_text sample_case_table 0%nat)
             {| previous_status := None; check_count := 0 |}
             [EvRequest get_verified; EvRequest get_unverified;
              EvRequest (post_verified MonitorActive)] 3%nat
             {| previous_status := None; check_count := 1 |} 5%nat).
    + reflexivity.
    + eapply failed_polls_more with (err := "connection refused").
      * reflexivity.
      * reflexivity.
      * apply failed_polls_none.
Defined.

(** * Further properties of the script *)

(** ** [send_discord_alert] and [check_website] *)

(** The webhook call makes the verified POST; when that raises it makes
    the same POST once without verification, and nothing after it. *)
Theorem send_discord_alert_single_fallback
    (env : network) (msg : message) (k : nat) :
  requests (events_of (send_discord_alert env msg k))
  = match env k (post_verified msg) with
    | Responds _ => [post_verified msg]
    | Raises _ => [post_verified msg; without_verification (post_verified msg)]
    end.
Proof.
  destruct (env k (post_verified msg)) as [r|e] eqn:H1.
  - now rewrite (send_verified_responds env msg k r H1).
  - destruct (env (S k) (post_unverified msg)) as [r|e'] eqn:H2.
    + now rewrite (send_fallback_responds env msg k e r H1 H2).
    + now rewrite (send_fallback_raises env msg k e e' H1 H2).
Qed.

(** The result of [check_website] from the outcome of its two attempts. *)
Lemma check_website_result (env : network) (get_text : Str.str -> Str.str) (unicode_upper : Str.case_table) (k : nat) :
  result_of (check_website env get_text unicode_upper k)
  = match page_outcome env k with
    | Responds r => Ok (page_result get_text unicode_upper r)
    | Raises e => if is_Exception e then Ok (PollFailed (exc_str e)) else Raise e
    end.
Proof.
  unfold page_outcome.
  destruct (env k get_verified) as [r|e] eqn:H1.
  - now rewrite (check_website_verified_responds env get_text unicode_upper k r H1).
  - destruct (env (S k) get_unverified) as [r|e'] eqn:H2.
    + now rewrite (check_website_fallback_responds env get_text unicode_upper k e r H1 H2).
    + rewrite (check_website_fallback_raises env get_text unicode_upper k e e' H1 H2).
      cbn [result_of fst]. reflexivity.
Qed.

Lemma page_result_success (get_text : Str.str -> Str.str) (unicode_upper : Str.case_table) (r : response) :
  success (page_result get_text unicode_upper r) = true <-> ~ (400 <= status_code r < 600).
Proof.
  unfold page_result.
  destruct (400 <=? status_code r) eqn:H1; destruct (status_code r <? 600) eqn:H2;
    cbn [andb success extract];
    try apply Z.leb_le in H1; try apply Z.leb_gt in H1;
    try apply Z.ltb_lt in H2; try apply Z.ltb_ge in H2;
    split; intros; try lia; try discriminate; try reflexivity.
Qed.

(** [check_website] lets out no exception of class [Exception]: what it
    raises is the interrupt the fallback attempt met.  It reports success
    exactly when one of its attempts received a response whose status is
    outside 400-599; and when the fallback raised an [Exception], the error
    it reports is that of the fallback, not that of the verified attempt. *)
Theorem check_website_outcome
    (env : network) (get_text : Str.str -> Str.str) (unicode_upper : Str.case_table)
    (k : nat) :
  (forall e, result_of (check_website env get_text unicode_upper k) = Raise e ->
             is_Exception e = false /\ page_outcome env k = Raises e) /\
  ((exists r, result_of (check_website env get_text unicode_upper k) = Ok r /\ success r = true) <->
   (exists resp, page_outcome env k = Responds resp /\
                 ~ (400 <= status_code resp < 600))) /\
  (forall e, page_outcome env k = Raises e -> is_Exception e = true ->
             result_of (check_website env get_text unicode_upper k) = Ok (PollFailed (exc_str e))).
Proof.
  rewrite check_website_result.
  destruct (page_outcome env k) as [resp|e0].
  - split; [discriminate|]. split; [|discriminate].
    split.
    + intros (r & E & Hs). injection E as <-. exists resp. split; [reflexivity|].
      now apply page_result_success in Hs.
    + intros (resp' & E & Hc). injection E as <-.
      eexists. split; [reflexivity|]. now apply page_result_success.
  - destruct (is_Exception e0) eqn:He.
    + split; [discriminate|]. split.
      * split.
        -- intros (r & E & Hs). injection E as <-. discriminate.
        -- intros (resp & E & _). discriminate.
      * intros e E _. now injection E as <-.
    + split.
      * intros e E. injection E as <-. split; [exact He | reflexivity].
      * split.
        -- split.
           ++ intros (r & E & _). discriminate.
           ++ intros (resp & E & _). discriminate.
        -- intros e E He'. injection E as <-. congruence.
Qed.

Lemma check_website_outcome_witness :
  result_of (check_website
               (scripted [Raises (RequestException "certificate verify failed");
                          Raises (RequestException "timed out")])
               plain_text sample_case_table 0%nat)
  = Ok (PollFailed "timed out").
Proof.
  apply (proj2 (proj2 (check_website_outcome
                         (scripted [Raises (RequestException "certificate verify failed");
                                    Raises (RequestException "timed out")])
                         plain_text sample_case_table 0%nat))
           (RequestException "timed out")); reflexivity.
Defined.

(** ** The page snippet *)

Lemma take_length (n : nat) (s : Str.str) :
  List.length (Str.take n s) = Nat.min n (List.length s).
Proof. unfold Str.take. apply length_firstn. Qed.

Lemma take_prefix (n : nat) (s : Str.str) :
  exists rest, s = (Str.take n s ++ rest)%list.
Proof. exists (skipn n s). unfold Str.take. now rewrite firstn_skipn. Qed.

Lemma upper_length_ascii (table : Str.case_table) (s : Str.str) :
  Str.is_ascii s -> List.length (Str.upper table s) = List.length s.
Proof. intros H. now rewrite (StrFacts.upper_ascii table s H), length_map. Qed.

(** The [page_text] entry of a successful poll is the start of the
    upper-cased page text: all of it when that has at most 300 characters,
    its first 300 characters otherwise.  For a page text within ASCII,
    which upper-casing does not lengthen, the bound is on the page text
    itself. *)
Theorem extract_snippet (unicode_upper : Str.case_table) (soup_text : Str.str) :
  exists is_full is_open page_text,
    extract unicode_upper soup_text = PollOk is_full is_open page_text /\
    List.length page_text
    = Nat.min 300 (List.length (Str.upper unicode_upper soup_text)) /\
    (exists rest, Str.upper unicode_upper soup_text = (page_text ++ rest)%list) /\
    (Str.is_ascii soup_text ->
     List.length page_text = Nat.min 300 (List.length soup_text)).
Proof.
  unfold extract. eexists _, _, _. split; [reflexivity|]. split; [|split].
  - apply take_length.
  - apply take_prefix.
  - intros H. now rewrite take_length, upper_length_ascii.
Qed.

Lemma extract_snippet_witness :
  exists is_full is_open page_text,
    extract sample_case_table "Amp is full" = PollOk is_full is_open page_text /\
    List.length page_text = Nat.min 300 (List.length (Str.of_string "Amp is full")).
Proof.
  destruct (extract_snippet sample_case_table "Amp is full")
    as (f & o & s & E & _ & _ & Hascii).
  exists f, o, s. split; [exact E|].
  apply Hascii. repeat (constructor; [reflexivity|]). constructor.
Defined.

(** Two hundred sharp s make four hundred characters in upper case, of
    which the snippet keeps three hundred. *)
Example extract_sharp_s :
  match extract sample_case_table (repeat 223%N 200) with
  | PollOk _ _ page_text => List.length page_text = 300%nat
  | PollFailed _ => False
  end.
Proof. vm_compute. reflexivity. Qed.

(** ** What gets out of the monitor *)

Section Errors.

Variable env : network.
Variable get_text : Str.str -> Str.str.
Variable unicode_upper : Str.case_table.

Lemma swallows_ret {A} (a : A) : swallows_errors env (ret a).
Proof. intros k. cbn. split; [lia | discriminate]. Qed.

Lemma swallows_bind {A B} (m : M A) (f : A -> M B) :
  swallows_errors env m ->
  (forall a, swallows_errors env (f a)) ->
  swallows_errors env (bind m f).
Proof.
  intros Hm Hf k. unfold bind. destruct (Hm k) as [Hn Hr].
  destruct (m k) as [[[a|e0] t] k']; cbn [next_of events_of result_of fst snd] in *.
  - destruct (Hf a k') as [Hn' Hr'].
    destruct (f a k') as [[r t'] k'']; cbn [next_of events_of result_of fst snd] in *.
    rewrite requests_app. split.
    + rewrite length_app. lia.
    + intros e He. destruct (Hr' e He) as (Hex & rs & req & Hrs & Hv & Henv).
      split; [exact Hex|]. exists (requests t ++ rs)%list, req.
      rewrite Hrs, app_assoc. split; [reflexivity|]. split; [exact Hv|].
      rewrite length_app, Nat.add_assoc, <- Hn. exact Henv.
  - split; [exact Hn|]. intros e He. apply Hr. now injection He as ->.
Qed.

Lemma swallows_check_website :
  swallows_errors env (check_website env get_text unicode_upper).
Proof.
  intros k.
  destruct (env k get_verified) as [r|e0] eqn:H1.
  - rewrite (check_website_verified_responds env get_text unicode_upper k r H1).
    cbn. split; [lia | discriminate].
  - destruct (env (S k) get_unverified) as [r|e1] eqn:H2.
    + rewrite (check_website_fallback_responds env get_text unicode_upper k e0 r H1 H2).
      cbn. split; [lia | discriminate].
    + rewrite (check_website_fallback_raises env get_text unicode_upper k e0 e1 H1 H2).
      cbn [next_of events_of result_of fst snd requests List.length]. split; [lia|].
      destruct (is_Exception e1) eqn:He; [discriminate|].
      intros e E. injection E as <-. split; [exact He|].
      exists [get_verified], get_unverified. split; [reflexivity|].
      split; [reflexivity|]. cbn [List.length]. now rewrite Nat.add_1_r.
Qed.

Lemma swallows_send (msg : message) : swallows_errors env (send_discord_alert env msg).
Proof.
  intros k.
  destruct (env k (post_verified msg)) as [r|e0] eqn:H1.
  - rewrite (send_verified_responds env msg k r H1). cbn. split; [lia | discriminate].
  - destruct (env (S k) (post_unverified msg)) as [r|e1] eqn:H2.
    + rewrite (send_fallback_responds env msg k e0 r H1 H2).
      cbn. split; [lia | discriminate].
    + rewrite (send_fallback_raises env msg k e0 e1 H1 H2).
      cbn [next_of events_of result_of fst snd requests List.length]. split; [lia|].
      destruct (is_Exception e1) eqn:He; [discriminate|].
      intros e E. injection E as <-. split; [exact He|].
      exists [post_verified msg], (post_unverified msg). split; [reflexivity|].
      split; [reflexivity|]. cbn [List.length]. now rewrite Nat.add_1_r.
Qed.

Lemma swallows_sleep (s : Z) : swallows_errors env (sleep s).
Proof. intros k. cbn. split; [lia | discriminate]. Qed.

Lemma swallows_cycle (st : MonitorState) : swallows_errors env (cycle env get_text unicode_upper st).
Proof.
  unfold cycle. apply swallows_bind; [apply swallows_check_website|].
  intros [f o s|err].
  - apply swallows_bind.
    + apply swallows_bind; [|intros; apply swallows_ret].
      destruct (status_is (previous_status st) "FULL" && negb f).
      * apply swallows_bind; [apply swallows_send | intros; apply swallows_ret].
      * destruct (status_is (previous_status st) "OPEN" && f).
        -- apply swallows_bind; [apply swallows_send | intros; apply swallows_ret].
        -- apply swallows_ret.
    + intros st'. apply swallows_bind; [apply swallows_sleep | intros; apply swallows_ret].
  - apply swallows_bind; [apply swallows_ret|].
    intros st'. apply swallows_bind; [apply swallows_sleep | intros; apply swallows_ret].
Qed.

Lemma swallows_loop (n : nat) (st : MonitorState) :
  swallows_errors env (loop env get_text unicode_upper n st).
Proof.
  revert st. induction n as [|n IH]; intros st; cbn [loop].
  - apply swallows_ret.
  - apply swallows_bind; [apply swallows_cycle | exact IH].
Qed.

Lemma swallows_startup : swallows_errors env (startup env get_text unicode_upper).
Proof.
  unfold startup. apply swallows_bind; [apply swallows_check_website|].
  intros r. apply swallows_bind; [apply swallows_send | intros; apply swallows_ret].
Qed.

Lemma swallows_main (n : nat) : swallows_errors env (main env get_text unicode_upper n).
Proof.
  unfold main. apply swallows_bind; [apply swallows_startup | apply swallows_loop].
Qed.

(** How the [__main__] block ends, by how [main] ended. *)
Lemma program_cases (n : nat) (k : nat) :
  match main env get_text unicode_upper n k with
  | (Ok _, t, k') => program env get_text unicode_upper n k = (Ok tt, t, k')
  | (Raise KeyboardInterrupt, t, k') =>
      match send_discord_alert env StoppedManually k' with
      | (Ok _, t', k'') => program env get_text unicode_upper n k = (Ok tt, (t ++ t')%list, k'')
      | (Raise e, t', k'') => program env get_text unicode_upper n k = (Raise e, (t ++ t')%list, k'')
      end
  | (Raise SystemExit, t, k') => program env get_text unicode_upper n k = (Raise SystemExit, t, k')
  | (Raise e, t, k') =>
      program env get_text unicode_upper n k
      = (Ok tt, (t ++ events_of (send_discord_alert env (Crashed (exc_str e)) k'))%list,
         next_of (send_discord_alert env (Crashed (exc_str e)) k'))
  end.
Proof.
  unfold program, try_except, bind, ret.
  destruct (main env get_text unicode_upper n k) as [[[st|e] t] k']; cbn.
  - now rewrite app_nil_r.
  - destruct e; cbn;
      try (destruct (send_discord_alert env _ k') as [[[b|e'] t'] k''];
           cbn; rewrite ?app_nil_r; reflexivity).
    reflexivity.
Qed.

End Errors.

(** No failure of the page or of the webhook ends the monitor: when [main]
    stops, it is on an exception outside class [Exception], and that
    exception is what the last request of the run, made without
    certificate verification, met. *)
Theorem main_stops_on_interrupt_only
    (env : network) (get_text : Str.str -> Str.str) (unicode_upper : Str.case_table)
    (n k : nat) (e : exc) :
  result_of (main env get_text unicode_upper n k) = Raise e ->
  is_Exception e = false /\
  exists rs req,
    requests (events_of (main env get_text unicode_upper n k)) = (rs ++ [req])%list /\
    verify_of req = false /\
    env (k + List.length rs)%nat req = Raises e.
Proof. apply swallows_main. Qed.

Lemma main_stops_on_interrupt_only_witness :
  is_Exception KeyboardInterrupt = false /\
  exists rs req,
    requests (events_of (main (scripted [page "full"; delivered; down;
                                         Raises KeyboardInterrupt])
                              plain_text sample_case_table 3 0%nat))
    = (rs ++ [req])%list /\
    verify_of req = false /\
    scripted [page "full"; delivered; down; Raises KeyboardInterrupt]
             (0 + List.length rs)%nat req
    = Raises KeyboardInterrupt.
Proof.
  exact (main_stops_on_interrupt_only
           (scripted [page "full"; delivered; down; Raises KeyboardInterrupt])
           plain_text sample_case_table 3 0%nat
           KeyboardInterrupt eq_refl).
Defined.

(** The [__main__] block lets out no exception of class [Exception], and
    it adds one alert to those of [main], the notice of a manual stop,
    exactly when [main] was stopped by a [KeyboardInterrupt]; the crash
    notice is never sent for a failure of the network. *)
Theorem program_reports_manual_stop
    (env : network) (get_text : Str.str -> Str.str) (unicode_upper : Str.case_table)
    (n k : nat) :
  (forall e, result_of (program env get_text unicode_upper n k) = Raise e -> is_Exception e = false) /\
  alerts (events_of (program env get_text unicode_upper n k))
  = (alerts (events_of (main env get_text unicode_upper n k))
     ++ match result_of (main env get_text unicode_upper n k) with
        | Raise KeyboardInterrupt => [StoppedManually]
        | _ => []
        end)%list.
Proof.
  pose proof (program_cases env get_text unicode_upper n k) as Hp.
  pose proof (swallows_main env get_text unicode_upper n k) as Hm.
  destruct (main env get_text unicode_upper n k) as [[[st|e] t] k'];
    cbn [result_of events_of fst snd] in *.
  - rewrite Hp. cbn [result_of events_of fst snd]. split; [discriminate|].
    now rewrite app_nil_r.
  - destruct (proj2 Hm e eq_refl) as [He _].
    destruct e; try discriminate He.
    + pose proof (swallows_send env StoppedManually k') as Hs.
      pose proof (send_one_alert env StoppedManually k') as Ha.
      destruct (send_discord_alert env StoppedManually k') as [[[b|e'] t'] k''];
        rewrite Hp; cbn [result_of events_of fst snd] in *;
        rewrite alerts_app, Ha; (split; [|reflexivity]).
      * discriminate.
      * intros e E. injection E as <-. now destruct (proj2 Hs e' eq_refl).
    + rewrite Hp. cbn [result_of events_of fst snd]. split.
      * intros e E. now injection E as <-.
      * now rewrite app_nil_r.
Qed.

Lemma program_reports_manual_stop_witness :
  is_Exception SystemExit = false /\
  alerts (events_of (program (scripted [page "full"; delivered; down; Raises KeyboardInterrupt])
                             plain_text sample_case_table 2 0%nat))
  = [MonitorActive; StoppedManually].
Proof.
  split.
  - exact (proj1 (program_reports_manual_stop
                    (scripted [Raises KeyboardInterrupt; Raises SystemExit])
                    plain_text sample_case_table 2 0%nat)
             SystemExit eq_refl).
  - exact (proj2 (program_reports_manual_stop
                    (scripted [page "full"; delivered; down; Raises KeyboardInterrupt])
                    plain_text sample_case_table 2 0%nat)).
Defined.

(** ** Requests without certificate verification *)

Lemma fallbacks_justified_app (env : network) k a k' b k'' :
  fallbacks_justified env k a k' ->
  fallbacks_justified env k' b k'' ->
  fallbacks_justified env k (a ++ b) k''.
Proof.
  induction 1 as [k | k r rs k' Hv _ IH | k r e rs k' Hv He _ IH]; intros Hb.
  - exact Hb.
  - cbn. apply justified_verified; auto.
  - cbn. eapply justified_fallback; eauto.
Qed.

(** In a justified stretch every request without verification comes right
    after its verified twin, which raised. *)
Lemma fallbacks_justified_nth (env : network) k rs k' :
  fallbacks_justified env k rs k' ->
  forall i r,
    nth_error rs i = Some r -> verify_of r = false ->
    exists i' r0 e,
      i = S i' /\ nth_error rs i' = Some r0 /\ verify_of r0 = true /\
      r = without_verification r0 /\ env (k + i')%nat r0 = Raises e.
Proof.
  induction 1 as [k | k r0 rs k' Hv _ IH | k r0 e rs k' Hv He _ IH]; intros i r Hn Hu.
  - destruct i; discriminate.
  - destruct i as [|i]; cbn in Hn.
    + injection Hn as ->. congruence.
    + destruct (IH i r Hn Hu) as (i' & r1 & e & -> & Hn' & Hv' & Hr & He).
      exists (S i'), r1, e. repeat split; auto.
      now rewrite Nat.add_succ_r.
  - destruct i as [|[|i]]; cbn in Hn.
    + injection Hn as ->. congruence.
    + injection Hn as <-. exists 0%nat, r0, e. repeat split; auto.
      now rewrite Nat.add_0_r.
    + destruct (IH i r Hn Hu) as (i' & r1 & e1 & -> & Hn' & Hv' & Hr & He1).
      exists (S (S i')), r1, e1. repeat split; auto.
      now rewrite !Nat.add_succ_r.
Qed.

Section Justified.

Variable env : network.
Variable get_text : Str.str -> Str.str.
Variable unicode_upper : Str.case_table.

Lemma justified_ret {A} (a : A) : justified_run env (ret a).
Proof. intros k. apply justified_done. Qed.

Lemma justified_sleep (s : Z) : justified_run env (sleep s).
Proof. intros k. apply justified_done. Qed.

Lemma justified_bind {A B} (m : M A) (f : A -> M B) :
  justified_run env m ->
  (forall a, justified_run env (f a)) ->
  justified_run env (bind m f).
Proof.
  intros Hm Hf k. unfold bind. specialize (Hm k).
  destruct (m k) as [[[a|e] t] k']; cbn [events_of next_of fst snd] in *.
  - specialize (Hf a k'). destruct (f a k') as [[r t'] k''].
    cbn [events_of next_of fst snd] in *. rewrite requests_app.
    eapply fallbacks_justified_app; eauto.
  - exact Hm.
Qed.

Lemma justified_try_except {A} (m : M A) (catches : exc -> bool) (h : exc -> M A) :
  justified_run env m ->
  (forall e, justified_run env (h e)) ->
  justified_run env (try_except m catches h).
Proof.
  intros Hm Hh k. unfold try_except. specialize (Hm k).
  destruct (m k) as [[[a|e] t] k']; cbn [events_of next_of fst snd] in *.
  - exact Hm.
  - destruct (catches e); [|exact Hm].
    specialize (Hh e k'). destruct (h e k') as [[r t'] k''].
    cbn [events_of next_of fst snd] in *. rewrite requests_app.
    eapply fallbacks_justified_app; eauto.
Qed.

Lemma justified_check_website : justified_run env (check_website env get_text unicode_upper).
Proof.
  intros k.
  destruct (env k get_verified) as [r|e] eqn:H1.
  - rewrite (check_website_verified_responds env get_text unicode_upper k r H1).
    apply justified_verified; [reflexivity | apply justified_done].
  - destruct (env (S k) get_unverified) as [r|e'] eqn:H2.
    + rewrite (check_website_fallback_responds env get_text unicode_upper k e r H1 H2).
      apply (justified_fallback env k get_verified e); auto. apply justified_done.
    + rewrite (check_website_fallback_raises env get_text unicode_upper k e e' H1 H2).
      apply (justified_fallback env k get_verified e); auto. apply justified_done.
Qed.

Lemma justified_send (msg : message) : justified_run env (send_discord_alert env msg).
Proof.
  intros k.
  destruct (env k (post_verified msg)) as [r|e] eqn:H1.
  - rewrite (send_verified_responds env msg k r H1).
    apply justified_verified; [reflexivity | apply justified_done].
  - destruct (env (S k) (post_unverified msg)) as [r|e'] eqn:H2.
    + rewrite (send_fallback_responds env msg k e r H1 H2).
      apply (justified_fallback env k (post_verified msg) e); auto. apply justified_done.
    + rewrite (send_fallback_raises env msg k e e' H1 H2).
      apply (justified_fallback env k (post_verified msg) e); auto. apply justified_done.
Qed.

Lemma justified_cycle (st : MonitorState) : justified_run env (cycle env get_text unicode_upper st).
Proof.
  unfold cycle. apply justified_bind; [apply justified_check_website|].
  intros [f o s|err].
  - apply justified_bind.
    + apply justified_bind; [|intros; apply justified_ret].
      destruct (status_is (previous_status st) "FULL" && negb f).
      * apply justified_bind; [apply justified_send | intros; apply justified_ret].
      * destruct (status_is (previous_status st) "OPEN" && f).
        -- apply justified_bind; [apply justified_send | intros; apply justified_ret].
        -- apply justified_ret.
    + intros st'. apply justified_bind; [apply justified_sleep | intros; apply justified_ret].
  - apply justified_bind; [apply justified_ret|].
    intros st'. apply justified_bind; [apply justified_sleep | intros; apply justified_ret].
Qed.

Lemma justified_loop (n : nat) (st : MonitorState) :
  justified_run env (loop env get_text unicode_upper n st).
Proof.
  revert st. induction n as [|n IH]; intros st; cbn [loop].
  - apply justified_ret.
  - apply justified_bind; [apply justified_cycle | exact IH].
Qed.

Lemma justified_main (n : nat) : justified_run env (main env get_text unicode_upper n).
Proof.
  unfold main, startup. apply justified_bind; [|apply justified_loop].
  apply justified_bind; [apply justified_check_website|].
  intros r. apply justified_bind; [apply justified_send | intros; apply justified_ret].
Qed.

Lemma justified_program (n : nat) : justified_run env (program env get_text unicode_upper n).
Proof.
  unfold program. apply justified_try_except.
  - apply justified_bind; [apply justified_main | intros; apply justified_ret].
  - intros e.
    assert (Hs : forall msg,
               justified_run env (bind (send_discord_alert env msg) (fun _ => ret tt))).
    { intros msg. apply justified_bind; [apply justified_send | intros; apply justified_ret]. }
    destruct e; try apply Hs;
      (apply justified_try_except; [apply Hs | intros; apply justified_ret]).
Qed.

End Justified.

(** Through the whole run, start, loop and shutdown notice included, a
    request is made without certificate verification only right after the
    same request with verification, and only when that one raised. *)
Theorem unverified_request_follows_failure
    (env : network) (get_text : Str.str -> Str.str) (unicode_upper : Str.case_table)
    (n k i : nat) (r : request) :
  nth_error (requests (events_of (program env get_text unicode_upper n k))) i = Some r ->
  verify_of r = false ->
  exists i' r0 e,
    i = S i' /\
    nth_error (requests (events_of (program env get_text unicode_upper n k))) i' = Some r0 /\
    verify_of r0 = true /\
    r = without_verification r0 /\
    env (k + i')%nat r0 = Raises e.
Proof.
  apply (fallbacks_justified_nth env k _ _ (justified_program env get_text unicode_upper n k)).
Qed.

Lemma unverified_request_follows_failure_witness :
  exists i' r0 e,
    3%nat = S i' /\
    nth_error (requests (events_of
                 (program (scripted [page "full"; delivered; down; page "open"])
                          plain_text sample_case_table 1 0%nat))) i' = Some r0 /\
    verify_of r0 = true /\
    get_unverified = without_verification r0 /\
    scripted [page "full"; delivered; down; page "open"] (0 + i')%nat r0 = Raises e.
Proof.
  exact (unverified_request_follows_failure
           (scripted [page "full"; delivered; down; page "open"]) plain_text sample_case_table
           1 0%nat 3%nat get_unverified eq_refl eq_refl).
Defined.

(** ** Counting the passes *)

Lemma sleeps_app (t u : list event) : sleeps (t ++ u) = (sleeps t ++ sleeps u)%list.
Proof.
  induction t as [|[r|s] t IH]; simpl; [reflexivity | exact IH | now rewrite IH].
Qed.

Section Passes.

Variable env : network.
Variable get_text : Str.str -> Str.str.
Variable unicode_upper : Str.case_table.

Lemma check_website_no_sleep (k : nat) :
  sleeps (events_of (check_website env get_text unicode_upper k)) = [].
Proof.
  destruct (env k get_verified) as [r|e] eqn:H1.
  - now rewrite (check_website_verified_responds env get_text unicode_upper k r H1).
  - destruct (env (S k) get_unverified) as [r|e'] eqn:H2.
    + now rewrite (check_website_fallback_responds env get_text unicode_upper k e r H1 H2).
    + now rewrite (check_website_fallback_raises env get_text unicode_upper k e e' H1 H2).
Qed.

Lemma send_no_sleep (msg : message) (k : nat) :
  sleeps (events_of (send_discord_alert env msg k)) = [].
Proof.
  destruct (env k (post_verified msg)) as [r|e] eqn:H1.
  - now rewrite (send_verified_responds env msg k r H1).
  - destruct (env (S k) (post_unverified msg)) as [r|e'] eqn:H2.
    + now rewrite (send_fallback_responds env msg k e r H1 H2).
    + now rewrite (send_fallback_raises env msg k e e' H1 H2).
Qed.

(** A pass that goes through sleeps once, at its end; one that is
    interrupted does not sleep. *)
Lemma cycle_sleeps (st : MonitorState) (k : nat) :
  sleeps (events_of (cycle env get_text unicode_upper st k))
  = match result_of (cycle env get_text unicode_upper st k) with
    | Ok _ => [CHECK_INTERVAL]
    | Raise _ => []
    end.
Proof.
  pose proof (check_website_no_sleep k) as Hq.
  destruct (check_website env get_text unicode_upper k) as [[[[f o s|err]|e] t] k'] eqn:H;
    cbn [events_of fst snd] in Hq.
  - rewrite (cycle_poll_ok env get_text unicode_upper st k f o s t k' H).
    destruct (transition_alert (previous_status st) f) as [msg|].
    + pose proof (send_no_sleep msg k') as Hs.
      destruct (send_discord_alert env msg k') as [[[b|e] t'] k''];
        cbn [events_of result_of fst snd] in *;
        rewrite !sleeps_app, Hq, Hs; reflexivity.
    + cbn [events_of result_of fst snd]. now rewrite sleeps_app, Hq.
  - rewrite (cycle_poll_failed env get_text unicode_upper st k err t k' H).
    cbn [events_of result_of fst snd]. now rewrite sleeps_app, Hq.
  - rewrite (cycle_poll_raises env get_text unicode_upper st k e t k' H).
    cbn [events_of result_of fst snd]. exact Hq.
Qed.

Lemma loop_accounting (n : nat) (st st' : MonitorState) (k : nat) t k' :
  loop env get_text unicode_upper n st k = (Ok st', t, k') ->
  check_count st' = check_count st + Z.of_nat n /\
  sleeps t = repeat CHECK_INTERVAL n.
Proof.
  revert st k t k'. induction n as [|n IH]; intros st k t k'.
  - cbn. intros E. injection E as <- <- _. split; [lia | reflexivity].
  - cbn [loop]. unfold bind.
    pose proof (cycle_sleeps st k) as Hs.
    destruct (cycle env get_text unicode_upper st k) as [[[st1|e] t1] k1] eqn:Hc; [|discriminate].
    destruct (loop env get_text unicode_upper n st1 k1) as [[r t2] k2] eqn:Hl.
    intros E. injection E as -> <- _.
    destruct (IH st1 k1 t2 k2 Hl) as [Hn Ht].
    destruct (cycle_state env get_text unicode_upper st st1 k t1 k1 Hc) as [Hn1 _].
    cbn [events_of result_of fst snd] in Hs.
    split.
    + rewrite Hn, Hn1. lia.
    + rewrite sleeps_app, Hs, Ht. reflexivity.
Qed.

Lemma startup_no_sleep (k : nat) : sleeps (events_of (startup env get_text unicode_upper k)) = [].
Proof.
  pose proof (startup_cases env get_text unicode_upper k) as H.
  pose proof (check_website_no_sleep k) as Hq.
  destruct (check_website env get_text unicode_upper k) as [[[r|e] t0] k0];
    cbn [events_of fst snd] in *.
  - pose proof (send_no_sleep MonitorActive k0) as Hs.
    destruct (send_discord_alert env MonitorActive k0) as [[[b|e] t1] k1];
      rewrite H; cbn [events_of fst snd] in *; now rewrite sleeps_app, Hq, Hs.
  - now rewrite H.
Qed.

End Passes.

(** When [main] has gone through [n] passes of its loop, [check_count] is
    [n], the monitor has slept [n] times, each time for [CHECK_INTERVAL]
    seconds, and [previous_status] is unset, ['FULL'] or ['OPEN']. *)
Theorem main_accounting
    (env : network) (get_text : Str.str -> Str.str) (unicode_upper : Str.case_table)
    (n : nat)
    (st : MonitorState) (k : nat) (t : list event) (k' : nat) :
  main env get_text unicode_upper n k = (Ok st, t, k') ->
  check_count st = Z.of_nat n /\
  sleeps t = repeat CHECK_INTERVAL n /\
  known_status (previous_status st).
Proof.
  intros H. pose proof (main_known_status env get_text unicode_upper n st k t k' H) as Hk.
  unfold main, bind in H.
  pose proof (startup_no_sleep env get_text unicode_upper k) as Hs.
  destruct (startup env get_text unicode_upper k) as [[[st0|e] t0] k0] eqn:E0; [|discriminate].
  destruct (loop env get_text unicode_upper n st0 k0) as [[r t1] k1] eqn:E1.
  injection H as -> <- _.
  destruct (loop_accounting env get_text unicode_upper n st0 st k0 t1 k1 E1) as [Hn Ht].
  rewrite (startup_state env get_text unicode_upper st0 k t0 k0 E0) in Hn.
  cbn [events_of fst snd check_count] in *.
  repeat split.
  - lia.
  - now rewrite sleeps_app, Hs, Ht.
  - exact Hk.
Qed.

Lemma main_accounting_witness :
  check_count {| previous_status := Some "OPEN"; check_count := 2 |} = Z.of_nat 2 /\
  sleeps [EvRequest get_verified; EvRequest (post_verified MonitorActive);
          EvRequest get_verified; EvSleep CHECK_INTERVAL;
          EvRequest get_verified; EvRequest (post_verified AlertOpen);
          EvSleep CHECK_INTERVAL]
  = repeat CHECK_INTERVAL 2 /\
  known_status (Some "OPEN").
Proof.
  exact (main_accounting
           (scripted [page "full"; delivered; page "full"; page "open"; delivered])
           plain_text sample_case_table 2
           {| previous_status := Some "OPEN"; check_count := 2 |} 0%nat
           [EvRequest get_verified; EvRequest (post_verified MonitorActive);
            EvRequest get_verified; EvSleep CHECK_INTERVAL;
            EvRequest get_verified; EvRequest (post_verified AlertOpen);
            EvSleep CHECK_INTERVAL]
           5%nat eq_refl).
Defined.

(** ** The order of the alerts *)





(** ** From the page text to the alert *)

Lemma page_result_extract
    (get_text : Str.str -> Str.str) (unicode_upper : Str.case_table) (r : response) :
  ~ (400 <= status_code r < 600) ->
  page_result get_text unicode_upper r = extract unicode_upper (get_text (text r)).
Proof.
  intros H. unfold page_result.
  destruct (400 <=? status_code r) eqn:H1; destruct (status_code r <? 600) eqn:H2;
    try reflexivity.
  apply Z.leb_le in H1. apply Z.ltb_lt in H2. lia.
Qed.

Lemma status_is_eq (p : option string) (s : string) :
  status_is p s = true <-> p = Some s.
Proof.
  destruct p as [x|]; cbn.
  - rewrite String.eqb_eq. split; congruence.
  - split; discriminate.
Qed.

Lemma transition_alert_open (p : option string) (f : bool) :
  transition_alert p f = Some AlertOpen <-> p = Some "FULL" /\ f = false.
Proof.
  unfold transition_alert.
  destruct (status_is p "FULL") eqn:H1.
  - apply status_is_eq in H1. subst p. destruct f; cbn; split;
      try discriminate; try (intros [_ H]; discriminate); auto.
  - assert (Hne : p <> Some "FULL").
    { intros ->. cbn in H1. discriminate. }
    cbn. destruct (status_is p "OPEN" && f); split;
      try discriminate; intros [H _]; contradiction.
Qed.

Lemma transition_alert_full (p : option string) (f : bool) :
  transition_alert p f = Some AlertFull <-> p = Some "OPEN" /\ f = true.
Proof.
  unfold transition_alert.
  destruct (status_is p "FULL") eqn:H1.
  - apply status_is_eq in H1. subst p. destruct f; cbn; split;
      try discriminate; intros [H _]; discriminate.
  - cbn. destruct (status_is p "OPEN") eqn:H2.
    + apply status_is_eq in H2. subst p. destruct f; cbn; split;
        try discriminate; try (intros [_ H]; discriminate); auto.
    + assert (Hne : p <> Some "OPEN").
      { intros ->. cbn in H2. discriminate. }
      cbn. split; try discriminate. intros [H _]. contradiction.
Qed.

Lemma alert_list_eq (o : option message) (msg : message) :
  match o with Some x => [x] | None => [] end = [msg] <-> o = Some msg.
Proof. destruct o; split; intros H; try discriminate; injection H as ->; reflexivity. Qed.

(** When a pass receives a page with a status outside 400-599 and a text
    within ASCII, its alert is decided by [previous_status] and the word
    FULL alone: the OPEN alert goes out exactly when the status was
    ['FULL'] and the page text holds FULL in no mix of cases, the FULL
    alert exactly when the status was ['OPEN'] and the text holds it; OPEN,
    AVAILABLE and ACCEPTING play no part. *)
Theorem alert_decided_by_full_keyword
    (env : network) (get_text : Str.str -> Str.str) (unicode_upper : Str.case_table)
    (st : MonitorState) (k : nat) (resp : response) :
  page_outcome env k = Responds resp ->
  ~ (400 <= status_code resp < 600) ->
  Str.is_ascii (get_text (text resp)) ->
  (alerts (events_of (cycle env get_text unicode_upper st k)) = [AlertOpen] <->
   previous_status st = Some "FULL" /\
   ~ Str.contains_ignoring_case "FULL" (get_text (text resp))) /\
  (alerts (events_of (cycle env get_text unicode_upper st k)) = [AlertFull] <->
   previous_status st = Some "OPEN" /\
   Str.contains_ignoring_case "FULL" (get_text (text resp))).
Proof.
  intros Hout Hcode Hascii.
  rewrite cycle_alerts, check_website_result, Hout.
  rewrite (page_result_extract get_text unicode_upper resp Hcode). unfold extract.
  assert (Hc : Str.contains "FULL" (Str.upper unicode_upper (get_text (text resp))) = true
               <-> Str.contains_ignoring_case "FULL" (get_text (text resp))).
  { split.
    - now apply StrFacts.contains_upper_ascii.
    - now apply StrFacts.contains_upper_intro. }
  set (b := Str.contains "FULL" (Str.upper unicode_upper (get_text (text resp)))) in *.
  rewrite !alert_list_eq, transition_alert_open, transition_alert_full.
  split; split; intros [Hp Hx]; (split; [exact Hp|]).
  - intros H. apply Hc in H. congruence.
  - destruct b; [|reflexivity]. exfalso. apply Hx, Hc. reflexivity.
  - now apply Hc.
  - now apply Hc.
Qed.

Lemma alert_decided_by_full_keyword_witness :
  alerts (events_of (cycle (scripted [page "Back soon: maintenance"; delivered])
                           plain_text sample_case_table
                           {| previous_status := Some "FULL"; check_count := 4 |}
                           0%nat))
  = [AlertOpen].
Proof.
  apply (proj1 (alert_decided_by_full_keyword
                  (scripted [page "Back soon: maintenance"; delivered])
                  plain_text sample_case_table
                  {| previous_status := Some "FULL"; check_count := 4 |} 0%nat
                  (mkResponse 200 "Back soon: maintenance")
                  eq_refl ltac:(cbn; lia)
                  ltac:(repeat (constructor; [reflexivity|]); constructor))).
  split; [reflexivity|].
  intros H.
  apply StrFacts.contains_ignoring_case_b_spec in H.
  discriminate H.
Defined.

(** ** One pass, and the pass after it *)

Section Bounds.

Variable env : network.
Variable get_text : Str.str -> Str.str.
Variable unicode_upper : Str.case_table.

Lemma check_website_requests_shape (k : nat) :
  exists rest,
    requests (events_of (check_website env get_text unicode_upper k)) = get_verified :: rest /\
    (List.length rest <= 1)%nat.
Proof.
  destruct (env k get_verified) as [r|e] eqn:H1.
  - rewrite (check_website_verified_responds env get_text unicode_upper k r H1).
    exists []. split; [reflexivity | cbn; lia].
  - destruct (env (S k) get_unverified) as [r|e'] eqn:H2.
    + rewrite (check_website_fallback_responds env get_text unicode_upper k e r H1 H2).
      exists [get_unverified]. split; [reflexivity | cbn; lia].
    + rewrite (check_website_fallback_raises env get_text unicode_upper k e e' H1 H2).
      exists [get_unverified]. split; [reflexivity | cbn; lia].
Qed.

Lemma send_requests_length (msg : message) (k : nat) :
  (List.length (requests (events_of (send_discord_alert env msg k))) <= 2)%nat.
Proof.
  destruct (env k (post_verified msg)) as [r|e] eqn:H1.
  - rewrite (send_verified_responds env msg k r H1). cbn. lia.
  - destruct (env (S k) (post_unverified msg)) as [r|e'] eqn:H2.
    + rewrite (send_fallback_responds env msg k e r H1 H2). cbn. lia.
    + rewrite (send_fallback_raises env msg k e e' H1 H2). cbn. lia.
Qed.

Lemma cycle_requests (st : MonitorState) (k : nat) :
  requests (events_of (cycle env get_text unicode_upper st k))
  = (requests (events_of (check_website env get_text unicode_upper k))
     ++ match check_website env get_text unicode_upper k with
        | (Ok (PollOk f _ _), _, k') =>
            match transition_alert (previous_status st) f with
            | Some msg => requests (events_of (send_discord_alert env msg k'))
            | None => []
            end
        | _ => []
        end)%list.
Proof.
  destruct (check_website env get_text unicode_upper k) as [[[[f o s|err]|e] t] k'] eqn:H;
    cbn [events_of fst snd].
  - rewrite (cycle_poll_ok env get_text unicode_upper st k f o s t k' H).
    destruct (transition_alert (previous_status st) f) as [msg|].
    + destruct (send_discord_alert env msg k') as [[[b|e] t'] k''];
        cbn [events_of fst snd]; rewrite !requests_app; cbn;
        rewrite ?app_nil_r; reflexivity.
    + cbn [events_of fst snd]. rewrite requests_app. reflexivity.
  - rewrite (cycle_poll_failed env get_text unicode_upper st k err t k' H).
    cbn [events_of fst snd]. rewrite requests_app. reflexivity.
  - rewrite (cycle_poll_raises env get_text unicode_upper st k e t k' H).
    cbn [events_of fst snd]. now rewrite app_nil_r.
Qed.

End Bounds.

(** A pass of the loop starts with the verified page request, makes at
    most four requests in all, and sends at most one alert. *)
Theorem pass_bounds
    (env : network) (get_text : Str.str -> Str.str) (unicode_upper : Str.case_table)
    (st : MonitorState) (k : nat) :
  (exists rest, requests (events_of (cycle env get_text unicode_upper st k)) = get_verified :: rest) /\
  (List.length (requests (events_of (cycle env get_text unicode_upper st k))) <= 4)%nat /\
  (List.length (alerts (events_of (cycle env get_text unicode_upper st k))) <= 1)%nat.
Proof.
  rewrite cycle_requests, cycle_alerts.
  destruct (check_website_requests_shape env get_text unicode_upper k) as (rest & -> & Hrest).
  split; [eexists; reflexivity|]. split.
  - rewrite length_app. cbn [List.length].
    destruct (check_website env get_text unicode_upper k) as [[[[f o s|err]|e] t] k'];
      cbn [List.length]; try lia.
    destruct (transition_alert (previous_status st) f) as [msg|]; cbn [List.length];
      [|lia].
    pose proof (send_requests_length env msg k'). lia.
  - destruct (result_of (check_website env get_text unicode_upper k)) as [[f o s|err]|e];
      cbn [List.length]; try lia.
    destruct (transition_alert (previous_status st) f); cbn; lia.
Qed.


